(** * Verification of the greeting scripts and the job-status endpoint

    The repository holds three Python scripts:
    - [app.py], a Flask application with the routes [/] and [/job];
    - [hello.py] and [hello_second.py], two interactive loops that
      normalise a line of input, classify it as an exit keyword, a help
      keyword or a greeting, and print a canned answer.

    The development is a shallow embedding.  Module [Py] models the part
    of the Python 3 runtime the scripts call ([str.strip], [str.lower],
    [list.__contains__], [dict.get], [re.match] with [re.IGNORECASE]).
    Section [Script] transcribes the functions shared by the two greeting
    scripts, modules [Hello] and [HelloSecond] give the tables of each
    script, module [App] the Flask handler.

    Strings are sequences of code points, and [str.lower], [str.strip]
    and [re.IGNORECASE] are modelled on the whole of Unicode, since a line
    typed by the user may hold any character.  What the scripts print is
    kept, character for character.  An interrupt is modelled where
    [input()] waits for a line, not between two statements. *)

From Stdlib Require Import List NArith Bool Lia String Ascii.
Import ListNotations.
Local Open Scope N_scope.

(** * The Python runtime the scripts rely on *)

Module Py.

(** A Python [str] is a sequence of Unicode code points.  Numbers that
    are not code points (above 0x10FFFF) are harmless: no table mentions
    them. *)
Definition char := N.
Definition str := list char.

Definition str_eqb (a b : str) : bool :=
  if list_eq_dec N.eq_dec a b then true else false.

(** ** String literals

    The scripts are UTF-8 files; [u "..."] decodes a literal of this file
    (UTF-8 as well) into its code points, as the Python parser does. *)

Fixpoint utf8_decode (bs : list N) : str :=
  match bs with
  | [] => []
  | b0 :: r0 =>
    if b0 <? 0x80 then b0 :: utf8_decode r0
    else
      match r0 with
      | [] => []
      | b1 :: r1 =>
        let c1 := N.land b1 0x3F in
        if b0 <? 0xE0 then
          N.lor (N.shiftl (N.land b0 0x1F) 6) c1 :: utf8_decode r1
        else
          match r1 with
          | [] => []
          | b2 :: r2 =>
            let c2 := N.land b2 0x3F in
            if b0 <? 0xF0 then
              N.lor (N.shiftl (N.land b0 0x0F) 12)
                    (N.lor (N.shiftl c1 6) c2) :: utf8_decode r2
            else
              match r2 with
              | [] => []
              | b3 :: r3 =>
                let c3 := N.land b3 0x3F in
                N.lor (N.shiftl (N.land b0 0x07) 18)
                      (N.lor (N.shiftl c1 12) (N.lor (N.shiftl c2 6) c3))
                  :: utf8_decode r3
              end
          end
      end
  end.

Definition u (s : string) : str :=
  utf8_decode (map Byte.to_N (list_byte_of_string s)).

(** The line feed, written [\n] in the scripts. *)
Definition LF : char := 10.
Definition nl : str := [LF].

(** [s * n] on strings. *)
Fixpoint str_mul (s : str) (n : nat) : str :=
  match n with
  | O => []
  | S n' => s ++ str_mul s n'
  end.

(** ** Character classes of the Unicode database

    The tables are those of the Unicode Character Database 14.0.0, the one
    CPython 3.11 is built with. *)

Definition in_ranges (ranges : list (N * N)) (c : char) : bool :=
  existsb (fun r => (fst r <=? c) && (c <=? snd r)) ranges.

(** [_PyUnicode_IsWhitespace]: the characters [str.strip()] removes and
    [str.isspace()] accepts. *)
Definition whitespace_ranges : list (N * N) :=
  [ (0x09, 0x0D); (0x1C, 0x20); (0x85, 0x85); (0xA0, 0xA0)
  ; (0x1680, 0x1680); (0x2000, 0x200A); (0x2028, 0x2029)
  ; (0x202F, 0x202F); (0x205F, 0x205F); (0x3000, 0x3000) ].

Definition isspace (c : char) : bool := in_ranges whitespace_ranges c.

(** Simple lowercase mapping.  A run [(first, last, stride, image)] maps
    [first + k * stride], as long as it is at most [last], to
    [image + k * stride]. *)
Definition lowercase_runs : list (N * N * N * N) :=
  [ (0x41, 0x5A, 1, 0x61); (0xC0, 0xD6, 1, 0xE0); (0xD8, 0xDE, 1, 0xF8); (0x100, 0x12E, 2, 0x101)
  ; (0x130, 0x130, 1, 0x69); (0x132, 0x136, 2, 0x133); (0x139, 0x147, 2, 0x13A); (0x14A, 0x176, 2, 0x14B)
  ; (0x178, 0x178, 1, 0xFF); (0x179, 0x17D, 2, 0x17A); (0x181, 0x181, 1, 0x253); (0x182, 0x184, 2, 0x183)
  ; (0x186, 0x186, 1, 0x254); (0x187, 0x187, 1, 0x188); (0x189, 0x18A, 1, 0x256); (0x18B, 0x18B, 1, 0x18C)
  ; (0x18E, 0x18E, 1, 0x1DD); (0x18F, 0x18F, 1, 0x259); (0x190, 0x190, 1, 0x25B); (0x191, 0x191, 1, 0x192)
  ; (0x193, 0x193, 1, 0x260); (0x194, 0x194, 1, 0x263); (0x196, 0x196, 1, 0x269); (0x197, 0x197, 1, 0x268)
  ; (0x198, 0x198, 1, 0x199); (0x19C, 0x19C, 1, 0x26F); (0x19D, 0x19D, 1, 0x272); (0x19F, 0x19F, 1, 0x275)
  ; (0x1A0, 0x1A4, 2, 0x1A1); (0x1A6, 0x1A6, 1, 0x280); (0x1A7, 0x1A7, 1, 0x1A8); (0x1A9, 0x1A9, 1, 0x283)
  ; (0x1AC, 0x1AC, 1, 0x1AD); (0x1AE, 0x1AE, 1, 0x288); (0x1AF, 0x1AF, 1, 0x1B0); (0x1B1, 0x1B2, 1, 0x28A)
  ; (0x1B3, 0x1B5, 2, 0x1B4); (0x1B7, 0x1B7, 1, 0x292); (0x1B8, 0x1B8, 1, 0x1B9); (0x1BC, 0x1BC, 1, 0x1BD)
  ; (0x1C4, 0x1C4, 1, 0x1C6); (0x1C5, 0x1C5, 1, 0x1C6); (0x1C7, 0x1C7, 1, 0x1C9); (0x1C8, 0x1C8, 1, 0x1C9)
  ; (0x1CA, 0x1CA, 1, 0x1CC); (0x1CB, 0x1DB, 2, 0x1CC); (0x1DE, 0x1EE, 2, 0x1DF); (0x1F1, 0x1F1, 1, 0x1F3)
  ; (0x1F2, 0x1F4, 2, 0x1F3); (0x1F6, 0x1F6, 1, 0x195); (0x1F7, 0x1F7, 1, 0x1BF); (0x1F8, 0x21E, 2, 0x1F9)
  ; (0x220, 0x220, 1, 0x19E); (0x222, 0x232, 2, 0x223); (0x23A, 0x23A, 1, 0x2C65); (0x23B, 0x23B, 1, 0x23C)
  ; (0x23D, 0x23D, 1, 0x19A); (0x23E, 0x23E, 1, 0x2C66); (0x241, 0x241, 1, 0x242); (0x243, 0x243, 1, 0x180)
  ; (0x244, 0x244, 1, 0x289); (0x245, 0x245, 1, 0x28C); (0x246, 0x24E, 2, 0x247); (0x370, 0x372, 2, 0x371)
  ; (0x376, 0x376, 1, 0x377); (0x37F, 0x37F, 1, 0x3F3); (0x386, 0x386, 1, 0x3AC); (0x388, 0x38A, 1, 0x3AD)
  ; (0x38C, 0x38C, 1, 0x3CC); (0x38E, 0x38F, 1, 0x3CD); (0x391, 0x3A1, 1, 0x3B1); (0x3A3, 0x3AB, 1, 0x3C3)
  ; (0x3CF, 0x3CF, 1, 0x3D7); (0x3D8, 0x3EE, 2, 0x3D9); (0x3F4, 0x3F4, 1, 0x3B8); (0x3F7, 0x3F7, 1, 0x3F8)
  ; (0x3F9, 0x3F9, 1, 0x3F2); (0x3FA, 0x3FA, 1, 0x3FB); (0x3FD, 0x3FF, 1, 0x37B); (0x400, 0x40F, 1, 0x450)
  ; (0x410, 0x42F, 1, 0x430); (0x460, 0x480, 2, 0x461); (0x48A, 0x4BE, 2, 0x48B); (0x4C0, 0x4C0, 1, 0x4CF)
  ; (0x4C1, 0x4CD, 2, 0x4C2); (0x4D0, 0x52E, 2, 0x4D1); (0x531, 0x556, 1, 0x561); (0x10A0, 0x10C5, 1, 0x2D00)
  ; (0x10C7, 0x10C7, 1, 0x2D27); (0x10CD, 0x10CD, 1, 0x2D2D); (0x13A0, 0x13EF, 1, 0xAB70); (0x13F0, 0x13F5, 1, 0x13F8)
  ; (0x1C90, 0x1CBA, 1, 0x10D0); (0x1CBD, 0x1CBF, 1, 0x10FD); (0x1E00, 0x1E94, 2, 0x1E01); (0x1E9E, 0x1E9E, 1, 0xDF)
  ; (0x1EA0, 0x1EFE, 2, 0x1EA1); (0x1F08, 0x1F0F, 1, 0x1F00); (0x1F18, 0x1F1D, 1, 0x1F10); (0x1F28, 0x1F2F, 1, 0x1F20)
  ; (0x1F38, 0x1F3F, 1, 0x1F30); (0x1F48, 0x1F4D, 1, 0x1F40); (0x1F59, 0x1F5F, 2, 0x1F51); (0x1F68, 0x1F6F, 1, 0x1F60)
  ; (0x1F88, 0x1F8F, 1, 0x1F80); (0x1F98, 0x1F9F, 1, 0x1F90); (0x1FA8, 0x1FAF, 1, 0x1FA0); (0x1FB8, 0x1FB9, 1, 0x1FB0)
  ; (0x1FBA, 0x1FBB, 1, 0x1F70); (0x1FBC, 0x1FBC, 1, 0x1FB3); (0x1FC8, 0x1FCB, 1, 0x1F72); (0x1FCC, 0x1FCC, 1, 0x1FC3)
  ; (0x1FD8, 0x1FD9, 1, 0x1FD0); (0x1FDA, 0x1FDB, 1, 0x1F76); (0x1FE8, 0x1FE9, 1, 0x1FE0); (0x1FEA, 0x1FEB, 1, 0x1F7A)
  ; (0x1FEC, 0x1FEC, 1, 0x1FE5); (0x1FF8, 0x1FF9, 1, 0x1F78); (0x1FFA, 0x1FFB, 1, 0x1F7C); (0x1FFC, 0x1FFC, 1, 0x1FF3)
  ; (0x2126, 0x2126, 1, 0x3C9); (0x212A, 0x212A, 1, 0x6B); (0x212B, 0x212B, 1, 0xE5); (0x2132, 0x2132, 1, 0x214E)
  ; (0x2160, 0x216F, 1, 0x2170); (0x2183, 0x2183, 1, 0x2184); (0x24B6, 0x24CF, 1, 0x24D0); (0x2C00, 0x2C2F, 1, 0x2C30)
  ; (0x2C60, 0x2C60, 1, 0x2C61); (0x2C62, 0x2C62, 1, 0x26B); (0x2C63, 0x2C63, 1, 0x1D7D); (0x2C64, 0x2C64, 1, 0x27D)
  ; (0x2C67, 0x2C6B, 2, 0x2C68); (0x2C6D, 0x2C6D, 1, 0x251); (0x2C6E, 0x2C6E, 1, 0x271); (0x2C6F, 0x2C6F, 1, 0x250)
  ; (0x2C70, 0x2C70, 1, 0x252); (0x2C72, 0x2C72, 1, 0x2C73); (0x2C75, 0x2C75, 1, 0x2C76); (0x2C7E, 0x2C7F, 1, 0x23F)
  ; (0x2C80, 0x2CE2, 2, 0x2C81); (0x2CEB, 0x2CED, 2, 0x2CEC); (0x2CF2, 0x2CF2, 1, 0x2CF3); (0xA640, 0xA66C, 2, 0xA641)
  ; (0xA680, 0xA69A, 2, 0xA681); (0xA722, 0xA72E, 2, 0xA723); (0xA732, 0xA76E, 2, 0xA733); (0xA779, 0xA77B, 2, 0xA77A)
  ; (0xA77D, 0xA77D, 1, 0x1D79); (0xA77E, 0xA786, 2, 0xA77F); (0xA78B, 0xA78B, 1, 0xA78C); (0xA78D, 0xA78D, 1, 0x265)
  ; (0xA790, 0xA792, 2, 0xA791); (0xA796, 0xA7A8, 2, 0xA797); (0xA7AA, 0xA7AA, 1, 0x266); (0xA7AB, 0xA7AB, 1, 0x25C)
  ; (0xA7AC, 0xA7AC, 1, 0x261); (0xA7AD, 0xA7AD, 1, 0x26C); (0xA7AE, 0xA7AE, 1, 0x26A); (0xA7B0, 0xA7B0, 1, 0x29E)
  ; (0xA7B1, 0xA7B1, 1, 0x287); (0xA7B2, 0xA7B2, 1, 0x29D); (0xA7B3, 0xA7B3, 1, 0xAB53); (0xA7B4, 0xA7C2, 2, 0xA7B5)
  ; (0xA7C4, 0xA7C4, 1, 0xA794); (0xA7C5, 0xA7C5, 1, 0x282); (0xA7C6, 0xA7C6, 1, 0x1D8E); (0xA7C7, 0xA7C9, 2, 0xA7C8)
  ; (0xA7D0, 0xA7D0, 1, 0xA7D1); (0xA7D6, 0xA7D8, 2, 0xA7D7); (0xA7F5, 0xA7F5, 1, 0xA7F6); (0xFF21, 0xFF3A, 1, 0xFF41)
  ; (0x10400, 0x10427, 1, 0x10428); (0x104B0, 0x104D3, 1, 0x104D8); (0x10570, 0x1057A, 1, 0x10597); (0x1057C, 0x1058A, 1, 0x105A3)
  ; (0x1058C, 0x10592, 1, 0x105B3); (0x10594, 0x10595, 1, 0x105BB); (0x10C80, 0x10CB2, 1, 0x10CC0); (0x118A0, 0x118BF, 1, 0x118C0)
  ; (0x16E40, 0x16E5F, 1, 0x16E60); (0x1E900, 0x1E921, 1, 0x1E922) ].

(** Property [Cased] (letters that are lowercase, uppercase or titlecase). *)
Definition cased_ranges : list (N * N) :=
  [ (0x41, 0x5A); (0x61, 0x7A); (0xAA, 0xAA); (0xB5, 0xB5); (0xBA, 0xBA); (0xC0, 0xD6)
  ; (0xD8, 0xF6); (0xF8, 0x1BA); (0x1BC, 0x1BF); (0x1C4, 0x293); (0x295, 0x2B8); (0x2C0, 0x2C1)
  ; (0x2E0, 0x2E4); (0x345, 0x345); (0x370, 0x373); (0x376, 0x377); (0x37A, 0x37D); (0x37F, 0x37F)
  ; (0x386, 0x386); (0x388, 0x38A); (0x38C, 0x38C); (0x38E, 0x3A1); (0x3A3, 0x3F5); (0x3F7, 0x481)
  ; (0x48A, 0x52F); (0x531, 0x556); (0x560, 0x588); (0x10A0, 0x10C5); (0x10C7, 0x10C7); (0x10CD, 0x10CD)
  ; (0x10D0, 0x10FA); (0x10FD, 0x10FF); (0x13A0, 0x13F5); (0x13F8, 0x13FD); (0x1C80, 0x1C88); (0x1C90, 0x1CBA)
  ; (0x1CBD, 0x1CBF); (0x1D00, 0x1DBF); (0x1E00, 0x1F15); (0x1F18, 0x1F1D); (0x1F20, 0x1F45); (0x1F48, 0x1F4D)
  ; (0x1F50, 0x1F57); (0x1F59, 0x1F59); (0x1F5B, 0x1F5B); (0x1F5D, 0x1F5D); (0x1F5F, 0x1F7D); (0x1F80, 0x1FB4)
  ; (0x1FB6, 0x1FBC); (0x1FBE, 0x1FBE); (0x1FC2, 0x1FC4); (0x1FC6, 0x1FCC); (0x1FD0, 0x1FD3); (0x1FD6, 0x1FDB)
  ; (0x1FE0, 0x1FEC); (0x1FF2, 0x1FF4); (0x1FF6, 0x1FFC); (0x2071, 0x2071); (0x207F, 0x207F); (0x2090, 0x209C)
  ; (0x2102, 0x2102); (0x2107, 0x2107); (0x210A, 0x2113); (0x2115, 0x2115); (0x2119, 0x211D); (0x2124, 0x2124)
  ; (0x2126, 0x2126); (0x2128, 0x2128); (0x212A, 0x212D); (0x212F, 0x2134); (0x2139, 0x2139); (0x213C, 0x213F)
  ; (0x2145, 0x2149); (0x214E, 0x214E); (0x2160, 0x217F); (0x2183, 0x2184); (0x24B6, 0x24E9); (0x2C00, 0x2CE4)
  ; (0x2CEB, 0x2CEE); (0x2CF2, 0x2CF3); (0x2D00, 0x2D25); (0x2D27, 0x2D27); (0x2D2D, 0x2D2D); (0xA640, 0xA66D)
  ; (0xA680, 0xA69D); (0xA722, 0xA787); (0xA78B, 0xA78E); (0xA790, 0xA7CA); (0xA7D0, 0xA7D1); (0xA7D3, 0xA7D3)
  ; (0xA7D5, 0xA7D9); (0xA7F5, 0xA7F6); (0xA7F8, 0xA7FA); (0xAB30, 0xAB5A); (0xAB5C, 0xAB68); (0xAB70, 0xABBF)
  ; (0xFB00, 0xFB06); (0xFB13, 0xFB17); (0xFF21, 0xFF3A); (0xFF41, 0xFF5A); (0x10400, 0x1044F); (0x104B0, 0x104D3)
  ; (0x104D8, 0x104FB); (0x10570, 0x1057A); (0x1057C, 0x1058A); (0x1058C, 0x10592); (0x10594, 0x10595); (0x10597, 0x105A1)
  ; (0x105A3, 0x105B1); (0x105B3, 0x105B9); (0x105BB, 0x105BC); (0x10780, 0x10780); (0x10783, 0x10785); (0x10787, 0x107B0)
  ; (0x107B2, 0x107BA); (0x10C80, 0x10CB2); (0x10CC0, 0x10CF2); (0x118A0, 0x118DF); (0x16E40, 0x16E7F); (0x1D400, 0x1D454)
  ; (0x1D456, 0x1D49C); (0x1D49E, 0x1D49F); (0x1D4A2, 0x1D4A2); (0x1D4A5, 0x1D4A6); (0x1D4A9, 0x1D4AC); (0x1D4AE, 0x1D4B9)
  ; (0x1D4BB, 0x1D4BB); (0x1D4BD, 0x1D4C3); (0x1D4C5, 0x1D505); (0x1D507, 0x1D50A); (0x1D50D, 0x1D514); (0x1D516, 0x1D51C)
  ; (0x1D51E, 0x1D539); (0x1D53B, 0x1D53E); (0x1D540, 0x1D544); (0x1D546, 0x1D546); (0x1D54A, 0x1D550); (0x1D552, 0x1D6A5)
  ; (0x1D6A8, 0x1D6C0); (0x1D6C2, 0x1D6DA); (0x1D6DC, 0x1D6FA); (0x1D6FC, 0x1D714); (0x1D716, 0x1D734); (0x1D736, 0x1D74E)
  ; (0x1D750, 0x1D76E); (0x1D770, 0x1D788); (0x1D78A, 0x1D7A8); (0x1D7AA, 0x1D7C2); (0x1D7C4, 0x1D7CB); (0x1DF00, 0x1DF09)
  ; (0x1DF0B, 0x1DF1E); (0x1E900, 0x1E943); (0x1F130, 0x1F149); (0x1F150, 0x1F169); (0x1F170, 0x1F189) ].

(** Property [Case_Ignorable] (marks, modifier letters, some punctuation). *)
Definition case_ignorable_ranges : list (N * N) :=
  [ (0x27, 0x27); (0x2E, 0x2E); (0x3A, 0x3A); (0x5E, 0x5E); (0x60, 0x60); (0xA8, 0xA8)
  ; (0xAD, 0xAD); (0xAF, 0xAF); (0xB4, 0xB4); (0xB7, 0xB8); (0x2B0, 0x36F); (0x374, 0x375)
  ; (0x37A, 0x37A); (0x384, 0x385); (0x387, 0x387); (0x483, 0x489); (0x559, 0x559); (0x55F, 0x55F)
  ; (0x591, 0x5BD); (0x5BF, 0x5BF); (0x5C1, 0x5C2); (0x5C4, 0x5C5); (0x5C7, 0x5C7); (0x5F4, 0x5F4)
  ; (0x600, 0x605); (0x610, 0x61A); (0x61C, 0x61C); (0x640, 0x640); (0x64B, 0x65F); (0x670, 0x670)
  ; (0x6D6, 0x6DD); (0x6DF, 0x6E8); (0x6EA, 0x6ED); (0x70F, 0x70F); (0x711, 0x711); (0x730, 0x74A)
  ; (0x7A6, 0x7B0); (0x7EB, 0x7F5); (0x7FA, 0x7FA); (0x7FD, 0x7FD); (0x816, 0x82D); (0x859, 0x85B)
  ; (0x888, 0x888); (0x890, 0x891); (0x898, 0x89F); (0x8C9, 0x902); (0x93A, 0x93A); (0x93C, 0x93C)
  ; (0x941, 0x948); (0x94D, 0x94D); (0x951, 0x957); (0x962, 0x963); (0x971, 0x971); (0x981, 0x981)
  ; (0x9BC, 0x9BC); (0x9C1, 0x9C4); (0x9CD, 0x9CD); (0x9E2, 0x9E3); (0x9FE, 0x9FE); (0xA01, 0xA02)
  ; (0xA3C, 0xA3C); (0xA41, 0xA42); (0xA47, 0xA48); (0xA4B, 0xA4D); (0xA51, 0xA51); (0xA70, 0xA71)
  ; (0xA75, 0xA75); (0xA81, 0xA82); (0xABC, 0xABC); (0xAC1, 0xAC5); (0xAC7, 0xAC8); (0xACD, 0xACD)
  ; (0xAE2, 0xAE3); (0xAFA, 0xAFF); (0xB01, 0xB01); (0xB3C, 0xB3C); (0xB3F, 0xB3F); (0xB41, 0xB44)
  ; (0xB4D, 0xB4D); (0xB55, 0xB56); (0xB62, 0xB63); (0xB82, 0xB82); (0xBC0, 0xBC0); (0xBCD, 0xBCD)
  ; (0xC00, 0xC00); (0xC04, 0xC04); (0xC3C, 0xC3C); (0xC3E, 0xC40); (0xC46, 0xC48); (0xC4A, 0xC4D)
  ; (0xC55, 0xC56); (0xC62, 0xC63); (0xC81, 0xC81); (0xCBC, 0xCBC); (0xCBF, 0xCBF); (0xCC6, 0xCC6)
  ; (0xCCC, 0xCCD); (0xCE2, 0xCE3); (0xD00, 0xD01); (0xD3B, 0xD3C); (0xD41, 0xD44); (0xD4D, 0xD4D)
  ; (0xD62, 0xD63); (0xD81, 0xD81); (0xDCA, 0xDCA); (0xDD2, 0xDD4); (0xDD6, 0xDD6); (0xE31, 0xE31)
  ; (0xE34, 0xE3A); (0xE46, 0xE4E); (0xEB1, 0xEB1); (0xEB4, 0xEBC); (0xEC6, 0xEC6); (0xEC8, 0xECD)
  ; (0xF18, 0xF19); (0xF35, 0xF35); (0xF37, 0xF37); (0xF39, 0xF39); (0xF71, 0xF7E); (0xF80, 0xF84)
  ; (0xF86, 0xF87); (0xF8D, 0xF97); (0xF99, 0xFBC); (0xFC6, 0xFC6); (0x102D, 0x1030); (0x1032, 0x1037)
  ; (0x1039, 0x103A); (0x103D, 0x103E); (0x1058, 0x1059); (0x105E, 0x1060); (0x1071, 0x1074); (0x1082, 0x1082)
  ; (0x1085, 0x1086); (0x108D, 0x108D); (0x109D, 0x109D); (0x10FC, 0x10FC); (0x135D, 0x135F); (0x1712, 0x1714)
  ; (0x1732, 0x1733); (0x1752, 0x1753); (0x1772, 0x1773); (0x17B4, 0x17B5); (0x17B7, 0x17BD); (0x17C6, 0x17C6)
  ; (0x17C9, 0x17D3); (0x17D7, 0x17D7); (0x17DD, 0x17DD); (0x180B, 0x180F); (0x1843, 0x1843); (0x1885, 0x1886)
  ; (0x18A9, 0x18A9); (0x1920, 0x1922); (0x1927, 0x1928); (0x1932, 0x1932); (0x1939, 0x193B); (0x1A17, 0x1A18)
  ; (0x1A1B, 0x1A1B); (0x1A56, 0x1A56); (0x1A58, 0x1A5E); (0x1A60, 0x1A60); (0x1A62, 0x1A62); (0x1A65, 0x1A6C)
  ; (0x1A73, 0x1A7C); (0x1A7F, 0x1A7F); (0x1AA7, 0x1AA7); (0x1AB0, 0x1ACE); (0x1B00, 0x1B03); (0x1B34, 0x1B34)
  ; (0x1B36, 0x1B3A); (0x1B3C, 0x1B3C); (0x1B42, 0x1B42); (0x1B6B, 0x1B73); (0x1B80, 0x1B81); (0x1BA2, 0x1BA5)
  ; (0x1BA8, 0x1BA9); (0x1BAB, 0x1BAD); (0x1BE6, 0x1BE6); (0x1BE8, 0x1BE9); (0x1BED, 0x1BED); (0x1BEF, 0x1BF1)
  ; (0x1C2C, 0x1C33); (0x1C36, 0x1C37); (0x1C78, 0x1C7D); (0x1CD0, 0x1CD2); (0x1CD4, 0x1CE0); (0x1CE2, 0x1CE8)
  ; (0x1CED, 0x1CED); (0x1CF4, 0x1CF4); (0x1CF8, 0x1CF9); (0x1D2C, 0x1D6A); (0x1D78, 0x1D78); (0x1D9B, 0x1DFF)
  ; (0x1FBD, 0x1FBD); (0x1FBF, 0x1FC1); (0x1FCD, 0x1FCF); (0x1FDD, 0x1FDF); (0x1FED, 0x1FEF); (0x1FFD, 0x1FFE)
  ; (0x200B, 0x200F); (0x2018, 0x2019); (0x2024, 0x2024); (0x2027, 0x2027); (0x202A, 0x202E); (0x2060, 0x2064)
  ; (0x2066, 0x206F); (0x2071, 0x2071); (0x207F, 0x207F); (0x2090, 0x209C); (0x20D0, 0x20F0); (0x2C7C, 0x2C7D)
  ; (0x2CEF, 0x2CF1); (0x2D6F, 0x2D6F); (0x2D7F, 0x2D7F); (0x2DE0, 0x2DFF); (0x2E2F, 0x2E2F); (0x3005, 0x3005)
  ; (0x302A, 0x302D); (0x3031, 0x3035); (0x303B, 0x303B); (0x3099, 0x309E); (0x30FC, 0x30FE); (0xA015, 0xA015)
  ; (0xA4F8, 0xA4FD); (0xA60C, 0xA60C); (0xA66F, 0xA672); (0xA674, 0xA67D); (0xA67F, 0xA67F); (0xA69C, 0xA69F)
  ; (0xA6F0, 0xA6F1); (0xA700, 0xA721); (0xA770, 0xA770); (0xA788, 0xA78A); (0xA7F2, 0xA7F4); (0xA7F8, 0xA7F9)
  ; (0xA802, 0xA802); (0xA806, 0xA806); (0xA80B, 0xA80B); (0xA825, 0xA826); (0xA82C, 0xA82C); (0xA8C4, 0xA8C5)
  ; (0xA8E0, 0xA8F1); (0xA8FF, 0xA8FF); (0xA926, 0xA92D); (0xA947, 0xA951); (0xA980, 0xA982); (0xA9B3, 0xA9B3)
  ; (0xA9B6, 0xA9B9); (0xA9BC, 0xA9BD); (0xA9CF, 0xA9CF); (0xA9E5, 0xA9E6); (0xAA29, 0xAA2E); (0xAA31, 0xAA32)
  ; (0xAA35, 0xAA36); (0xAA43, 0xAA43); (0xAA4C, 0xAA4C); (0xAA70, 0xAA70); (0xAA7C, 0xAA7C); (0xAAB0, 0xAAB0)
  ; (0xAAB2, 0xAAB4); (0xAAB7, 0xAAB8); (0xAABE, 0xAABF); (0xAAC1, 0xAAC1); (0xAADD, 0xAADD); (0xAAEC, 0xAAED)
  ; (0xAAF3, 0xAAF4); (0xAAF6, 0xAAF6); (0xAB5B, 0xAB5F); (0xAB69, 0xAB6B); (0xABE5, 0xABE5); (0xABE8, 0xABE8)
  ; (0xABED, 0xABED); (0xFB1E, 0xFB1E); (0xFBB2, 0xFBC2); (0xFE00, 0xFE0F); (0xFE13, 0xFE13); (0xFE20, 0xFE2F)
  ; (0xFE52, 0xFE52); (0xFE55, 0xFE55); (0xFEFF, 0xFEFF); (0xFF07, 0xFF07); (0xFF0E, 0xFF0E); (0xFF1A, 0xFF1A)
  ; (0xFF3E, 0xFF3E); (0xFF40, 0xFF40); (0xFF70, 0xFF70); (0xFF9E, 0xFF9F); (0xFFE3, 0xFFE3); (0xFFF9, 0xFFFB)
  ; (0x101FD, 0x101FD); (0x102E0, 0x102E0); (0x10376, 0x1037A); (0x10780, 0x10785); (0x10787, 0x107B0); (0x107B2, 0x107BA)
  ; (0x10A01, 0x10A03); (0x10A05, 0x10A06); (0x10A0C, 0x10A0F); (0x10A38, 0x10A3A); (0x10A3F, 0x10A3F); (0x10AE5, 0x10AE6)
  ; (0x10D24, 0x10D27); (0x10EAB, 0x10EAC); (0x10F46, 0x10F50); (0x10F82, 0x10F85); (0x11001, 0x11001); (0x11038, 0x11046)
  ; (0x11070, 0x11070); (0x11073, 0x11074); (0x1107F, 0x11081); (0x110B3, 0x110B6); (0x110B9, 0x110BA); (0x110BD, 0x110BD)
  ; (0x110C2, 0x110C2); (0x110CD, 0x110CD); (0x11100, 0x11102); (0x11127, 0x1112B); (0x1112D, 0x11134); (0x11173, 0x11173)
  ; (0x11180, 0x11181); (0x111B6, 0x111BE); (0x111C9, 0x111CC); (0x111CF, 0x111CF); (0x1122F, 0x11231); (0x11234, 0x11234)
  ; (0x11236, 0x11237); (0x1123E, 0x1123E); (0x112DF, 0x112DF); (0x112E3, 0x112EA); (0x11300, 0x11301); (0x1133B, 0x1133C)
  ; (0x11340, 0x11340); (0x11366, 0x1136C); (0x11370, 0x11374); (0x11438, 0x1143F); (0x11442, 0x11444); (0x11446, 0x11446)
  ; (0x1145E, 0x1145E); (0x114B3, 0x114B8); (0x114BA, 0x114BA); (0x114BF, 0x114C0); (0x114C2, 0x114C3); (0x115B2, 0x115B5)
  ; (0x115BC, 0x115BD); (0x115BF, 0x115C0); (0x115DC, 0x115DD); (0x11633, 0x1163A); (0x1163D, 0x1163D); (0x1163F, 0x11640)
  ; (0x116AB, 0x116AB); (0x116AD, 0x116AD); (0x116B0, 0x116B5); (0x116B7, 0x116B7); (0x1171D, 0x1171F); (0x11722, 0x11725)
  ; (0x11727, 0x1172B); (0x1182F, 0x11837); (0x11839, 0x1183A); (0x1193B, 0x1193C); (0x1193E, 0x1193E); (0x11943, 0x11943)
  ; (0x119D4, 0x119D7); (0x119DA, 0x119DB); (0x119E0, 0x119E0); (0x11A01, 0x11A0A); (0x11A33, 0x11A38); (0x11A3B, 0x11A3E)
  ; (0x11A47, 0x11A47); (0x11A51, 0x11A56); (0x11A59, 0x11A5B); (0x11A8A, 0x11A96); (0x11A98, 0x11A99); (0x11C30, 0x11C36)
  ; (0x11C38, 0x11C3D); (0x11C3F, 0x11C3F); (0x11C92, 0x11CA7); (0x11CAA, 0x11CB0); (0x11CB2, 0x11CB3); (0x11CB5, 0x11CB6)
  ; (0x11D31, 0x11D36); (0x11D3A, 0x11D3A); (0x11D3C, 0x11D3D); (0x11D3F, 0x11D45); (0x11D47, 0x11D47); (0x11D90, 0x11D91)
  ; (0x11D95, 0x11D95); (0x11D97, 0x11D97); (0x11EF3, 0x11EF4); (0x13430, 0x13438); (0x16AF0, 0x16AF4); (0x16B30, 0x16B36)
  ; (0x16B40, 0x16B43); (0x16F4F, 0x16F4F); (0x16F8F, 0x16F9F); (0x16FE0, 0x16FE1); (0x16FE3, 0x16FE4); (0x1AFF0, 0x1AFF3)
  ; (0x1AFF5, 0x1AFFB); (0x1AFFD, 0x1AFFE); (0x1BC9D, 0x1BC9E); (0x1BCA0, 0x1BCA3); (0x1CF00, 0x1CF2D); (0x1CF30, 0x1CF46)
  ; (0x1D167, 0x1D169); (0x1D173, 0x1D182); (0x1D185, 0x1D18B); (0x1D1AA, 0x1D1AD); (0x1D242, 0x1D244); (0x1DA00, 0x1DA36)
  ; (0x1DA3B, 0x1DA6C); (0x1DA75, 0x1DA75); (0x1DA84, 0x1DA84); (0x1DA9B, 0x1DA9F); (0x1DAA1, 0x1DAAF); (0x1E000, 0x1E006)
  ; (0x1E008, 0x1E018); (0x1E01B, 0x1E021); (0x1E023, 0x1E024); (0x1E026, 0x1E02A); (0x1E130, 0x1E13D); (0x1E2AE, 0x1E2AE)
  ; (0x1E2EC, 0x1E2EF); (0x1E8D0, 0x1E8D6); (0x1E944, 0x1E94B); (0x1F3FB, 0x1F3FF); (0xE0001, 0xE0001); (0xE0020, 0xE007F)
  ; (0xE0100, 0xE01EF) ].

Definition in_run (c : char) (r : N * N * N * N) : bool :=
  let '(first, last, stride, _) := r in
  (first <=? c) && (c <=? last) && ((c - first) mod stride =? 0).

Fixpoint run_lookup (runs : list (N * N * N * N)) (c : char) : option char :=
  match runs with
  | [] => None
  | r :: rest =>
    if in_run c r
    then let '(first, _, _, image) := r in Some (image + (c - first))
    else run_lookup rest c
  end.

(** [_PyUnicode_ToLowercase], which is also [_sre.unicode_tolower]. *)
Definition unicode_tolower (c : char) : char :=
  match run_lookup lowercase_runs c with
  | Some v => v
  | None => c
  end.

Definition is_cased (c : char) : bool := in_ranges cased_ranges c.
Definition is_case_ignorable (c : char) : bool :=
  in_ranges case_ignorable_ranges c.

(** [_PyUnicode_ToLowerFull]: the only character whose full lowercase
    mapping is not the simple one is U+0130, which becomes [i] followed by
    a combining dot. *)
Definition tolower_full (c : char) : str :=
  if c =? 0x130 then [0x69; 0x307] else [unicode_tolower c].

(** ** [str.lower()]

    [handle_capital_sigma] of [unicodeobject.c]: a capital sigma becomes a
    final sigma when a cased letter precedes it and none follows, case
    ignorable characters being skipped on both sides.  [before] holds the
    characters to the left, nearest first. *)
Fixpoint skip_case_ignorable (s : str) : str :=
  match s with
  | [] => []
  | c :: s' => if is_case_ignorable c then skip_case_ignorable s' else s
  end.

Definition handle_capital_sigma (before after : str) : char :=
  let final_sigma :=
    match skip_case_ignorable before with
    | [] => false
    | c :: _ => is_cased c
    end
    && match skip_case_ignorable after with
       | [] => true
       | c :: _ => negb (is_cased c)
       end in
  if final_sigma then 0x3C2 else 0x3C3.

Definition lower_ucs4 (before : str) (c : char) (after : str) : str :=
  if c =? 0x3A3 then [handle_capital_sigma before after] else tolower_full c.

Fixpoint do_lower (before s : str) : str :=
  match s with
  | [] => []
  | c :: after => lower_ucs4 before c after ++ do_lower (c :: before) after
  end.

Definition lower (s : str) : str := do_lower [] s.

(** ** [str.strip()] *)

Fixpoint lstrip (s : str) : str :=
  match s with
  | [] => []
  | c :: s' => if isspace c then lstrip s' else s
  end.

Definition rstrip (s : str) : str := rev (lstrip (rev s)).

Definition strip (s : str) : str := rstrip (lstrip s).

(** ** Lists and dictionaries *)

(** [x in l] for a list of strings. *)
Definition list_contains (l : list str) (x : str) : bool :=
  existsb (str_eqb x) l.

(** A dictionary display [{k1: v1, ...}], kept as its items in source
    order.  When a key is repeated the last item wins. *)
Definition dict := list (str * str).

Fixpoint dict_lookup (d : dict) (key : str) : option str :=
  match d with
  | [] => None
  | (k, v) :: d' =>
    match dict_lookup d' key with
    | Some v' => Some v'
    | None => if str_eqb key k then Some v else None
    end
  end.

(** [d.get(key, default)] *)
Definition dict_get (d : dict) (key default : str) : str :=
  match dict_lookup d key with
  | Some v => v
  | None => default
  end.

Definition keys (d : dict) : list str := map fst d.

(** ** [re.match]

    The fragment of the [re] module the scripts use: patterns made of
    ASCII literals, escaped punctuation, the anchors [^] and [$] and the
    greedy quantifier [?] on a single character.  A pattern outside the
    fragment is not given a meaning ([sre_parse] or [sre_compile] return
    [None]); the patterns of the scripts are all inside. *)

Definition ch (a : ascii) : char := N_of_ascii a.

Inductive at_code := AT_BEGINNING | AT_END.

(** Parsed pattern ([re._parser]). *)
Inductive node :=
| AT (a : at_code)
| LITERAL (av : char)
| MAX_REPEAT_0_1 (av : char).   (* [(MAX_REPEAT, (0, 1, [(LITERAL, av)]))] *)

Definition is_ascii_upper (c : char) : bool := (0x41 <=? c) && (c <=? 0x5A).
Definition is_ascii_lower (c : char) : bool := (0x61 <=? c) && (c <=? 0x7A).
Definition is_ascii_digit (c : char) : bool := (0x30 <=? c) && (c <=? 0x39).
Definition is_ascii_letter (c : char) : bool :=
  is_ascii_upper c || is_ascii_lower c.

(** [SPECIAL_CHARS] of [re._parser], the backslash apart. *)
Definition SPECIAL_CHARS : str := u ".[{()*+?^$|".

(** [_parse]: items are read left to right, and a quantifier rewrites the
    last item read.  [acc] holds the items read so far, last first. *)
Fixpoint sre_parse_from (acc : list node) (source : str)
  : option (list node) :=
  match source with
  | [] => Some (rev acc)
  | this :: rest =>
    if this =? ch "\" then
      match rest with
      | [] => None
      | e :: rest' =>
        if (e <? 0x80) && negb (is_ascii_letter e) && negb (is_ascii_digit e)
        then sre_parse_from (LITERAL e :: acc) rest'
        else None
      end
    else if this =? ch "^" then sre_parse_from (AT AT_BEGINNING :: acc) rest
    else if this =? ch "$" then sre_parse_from (AT AT_END :: acc) rest
    else if this =? ch "?" then
      match acc with
      | LITERAL av :: acc' => sre_parse_from (MAX_REPEAT_0_1 av :: acc') rest
      | _ => None
      end
    else if existsb (N.eqb this) SPECIAL_CHARS then None
    else sre_parse_from (LITERAL this :: acc) rest
  end.

Definition sre_parse (pattern : str) : option (list node) :=
  sre_parse_from [] pattern.

(** Compiled pattern ([re._compiler] and [_sre]). *)
Inductive charcode :=
| OP_LITERAL (av : char)
| OP_LITERAL_UNI_IGNORE (lo : char)
| OP_IN_UNI_IGNORE (set : list char).

Inductive opcode :=
| OP_AT (a : at_code)
| OP_CHAR (c : charcode)
| OP_REPEAT_0_1 (c : charcode).

(** [re._casefix._EXTRA_CASES] at the lowercase ASCII letters: the
    characters that are not the lowercase of a letter and still match it
    when case is ignored, U+0131 (dotless i) and U+017F (long s). *)
Definition EXTRA_CASES (lo : char) : list char :=
  if lo =? ch "i" then [0x131]
  else if lo =? ch "s" then [0x17F]
  else [].

(** [_compile] on a literal.  With [re.IGNORECASE] a cased literal is
    compared with the lowercase of the subject character, or with a set
    when the letter has extra cases.  [_sre.unicode_iscased] is modelled on
    ASCII, where the cased characters are the letters. *)
Definition compile_literal (ignorecase : bool) (av : char) : option charcode :=
  if negb ignorecase then Some (OP_LITERAL av)
  else if 0x80 <=? av then None
  else if negb (is_ascii_letter av) then Some (OP_LITERAL av)
  else
    let lo := unicode_tolower av in
    match EXTRA_CASES lo with
    | [] => Some (OP_LITERAL_UNI_IGNORE lo)
    | fixes => Some (OP_IN_UNI_IGNORE (lo :: fixes))
    end.

Fixpoint sre_compile (ignorecase : bool) (p : list node)
  : option (list opcode) :=
  match p with
  | [] => Some []
  | n :: p' =>
    match sre_compile ignorecase p' with
    | None => None
    | Some code =>
      match n with
      | AT a => Some (OP_AT a :: code)
      | LITERAL av =>
        option_map (fun c => OP_CHAR c :: code) (compile_literal ignorecase av)
      | MAX_REPEAT_0_1 av =>
        option_map (fun c => OP_REPEAT_0_1 c :: code)
                   (compile_literal ignorecase av)
      end
    end
  end.

Definition char_matches (c : charcode) (x : char) : bool :=
  match c with
  | OP_LITERAL av => x =? av
  | OP_LITERAL_UNI_IGNORE lo => unicode_tolower x =? lo
  | OP_IN_UNI_IGNORE set => existsb (N.eqb (unicode_tolower x)) set
  end.

(** [SRE_AT_END]: at the end of the string, or before a line feed that
    ends it. *)
Definition at_end (s : str) : bool :=
  match s with
  | [] => true
  | [c] => c =? LF
  | _ => false
  end.

(** The matching engine, on the rest [s] of the subject; [at_start] says
    that nothing was consumed yet.  The engine succeeds when the code is
    exhausted, wherever it stands in the subject then. *)
Fixpoint sre_match (code : list opcode) (at_start : bool) (s : str) : bool :=
  match code with
  | [] => true
  | OP_AT AT_BEGINNING :: code' => at_start && sre_match code' at_start s
  | OP_AT AT_END :: code' => at_end s && sre_match code' at_start s
  | OP_CHAR c :: code' =>
    match s with
    | x :: s' => char_matches c x && sre_match code' false s'
    | [] => false
    end
  | OP_REPEAT_0_1 c :: code' =>
    match s with
    | x :: s' => char_matches c x && sre_match code' false s'
    | [] => false
    end
    || sre_match code' at_start s
  end.

(** [bool(re.match(pattern, string, flags))], [flags] being [0] or
    [re.IGNORECASE]. *)
Definition re_match (pattern string : str) (ignorecase : bool) : bool :=
  match sre_parse pattern with
  | None => false
  | Some p =>
    match sre_compile ignorecase p with
    | None => false
    | Some code => sre_match code true string
    end
  end.

Definition IGNORECASE := true.

(** ** Standard streams

    What a program writes is kept as one string.  [print(s)] writes [s]
    and a line feed. *)
Definition print (s : str) : str := s ++ nl.

End Py.

Import Py.

(** * The greeting scripts

    [hello.py] and [hello_second.py] define the same functions and differ
    in three tables only: the patterns of [is_hello_command], the
    dictionary of [show_greeting] and the text of [show_help].  The
    functions are transcribed once, over these tables. *)

(** What [input()] does when it is called: it returns a line, or raises.
    The end of the input raises [EOFError]. *)
Inductive input_event :=
| Line (s : str)
| KeyboardInterrupt
| OtherException (message : str).

Inductive control := Continue | Break.

Section Script.

Variable hello_patterns : list str.
Variable responses : dict.
(** What [show_help()] prints. *)
Variable show_help : str.

Definition normalize_input (user_input : option str) : str :=
  match user_input with
  | None => u ""
  | Some s => lower (strip s)
  end.

(** The [for] loop of [is_hello_command]. *)
Fixpoint any_pattern_matches (patterns : list str) (normalized : str) : bool :=
  match patterns with
  | [] => false
  | pattern :: patterns' =>
    if re_match pattern normalized IGNORECASE then true
    else any_pattern_matches patterns' normalized
  end.

Definition is_hello_command (input_text : option str) : bool :=
  let normalized := normalize_input input_text in
  any_pattern_matches hello_patterns normalized.

Definition exit_commands : list str :=
  [ u "exit"
  ; u "quit"
  ; u "q"
  ; u "bye"
  ; u "goodbye"
  ; u "stop"
  ; u "end" ].

Definition is_exit_command (input_text : option str) : bool :=
  let normalized := normalize_input input_text in
  list_contains exit_commands normalized.

Definition help_commands : list str :=
  [ u "help"
  ; u "?"
  ; u "commands"
  ; u "info"
  ; u "usage" ].

Definition is_help_command (input_text : option str) : bool :=
  let normalized := normalize_input input_text in
  list_contains help_commands normalized.

Definition fallback_response : str := u "Hello! Great to see you!".

Definition show_greeting (input_text : option str) : str :=
  let normalized := normalize_input input_text in
  let response := dict_get responses normalized fallback_response in
  print (nl ++ u "🌟 " ++ response ++ u " 🌟" ++ nl).

Definition input_prompt : str := u "Enter something (or 'help' for commands): ".

(** [get_user_input], on what [input()] does; [None] is the end of the
    input.  The prompt is written before the line is read. *)
Definition get_user_input (ev : option input_event) : str * option str :=
  match ev with
  | Some (Line s) => (input_prompt, Some s)
  | None | Some KeyboardInterrupt =>
    (input_prompt ++ print (nl ++ nl ++ u "Goodbye!"), None)
  | Some (OtherException e) =>
    (input_prompt ++ print (nl ++ u "Error reading input: " ++ e), None)
  end.

Definition banner : str :=
  print (nl ++ str_mul (u "=") 50)
  ++ print (u "🚀 HELLO RESPONSE SCRIPT - ENHANCED VERSION 🚀")
  ++ print (str_mul (u "=") 50)
  ++ print (nl ++ u "Type 'hello' (or variations) to get a response!")
  ++ print (u "Type 'help' for available commands or 'exit' to quit." ++ nl).

Definition retry_prompt : str :=
  print (u "Please enter something. Type 'help' for commands." ++ nl).

Definition farewell : str :=
  print (nl ++ u "Thank you for using the Hello Response Script! 👋")
  ++ print (u "Goodbye!" ++ nl).

Definition unrecognized (user_input : str) : str :=
  print (nl ++ u "You entered: '" ++ user_input ++ u "'")
  ++ print (u "Try typing 'hello' or similar greetings! Type 'help' for more options." ++ nl).

(** The body of the [while True] loop of [main], once a line was read:
    what it prints, and whether the loop goes on. *)
Definition main_loop_body (user_input : str) : str * control :=
  match strip user_input with
  | [] => (retry_prompt, Continue)
  | _ :: _ =>
    if is_exit_command (Some user_input) then (farewell, Break)
    else if is_help_command (Some user_input) then (show_help, Continue)
    else if is_hello_command (Some user_input)
         then (show_greeting (Some user_input), Continue)
         else (unrecognized user_input, Continue)
  end.

(** The loop of [main] on the lines the user types. *)
Fixpoint main_loop (stdin : list input_event) : str :=
  match stdin with
  | [] => fst (get_user_input None)
  | ev :: stdin' =>
    match get_user_input (Some ev) with
    | (out, None) => out
    | (out, Some user_input) =>
      match main_loop_body user_input with
      | (out', Break) => out ++ out'
      | (out', Continue) => out ++ out' ++ main_loop stdin'
      end
    end
  end.

Definition main (stdin : list input_event) : str :=
  banner ++ main_loop stdin.

End Script.

(** ** [hello.py] *)

Module Hello.

Definition hello_patterns : list str :=
  [ u "^hello$"
  ; u "^hi$"
  ; u "^hey$"
  ; u "^hello there$"
  ; u "^good morning$"
  ; u "^good afternoon$"
  ; u "^good evening$"
  ; u "^greetings$"
  ; u "^salutations$"
  ; u "^hola$"
  ; u "^bonjour$"
  ; u "^hallo$"
  ; u "^ciao$"
  ; u "^namaste$" ].

Definition responses : dict :=
  [ (u "hello", u "Hello! Welcome!")
  ; (u "hi", u "Hi there! Nice to see you!")
  ; (u "hey", u "Hey! How's it going?")
  ; (u "hello there", u "Hello there! General Kenobi... 😉")
  ; (u "good morning", u "Good morning! Rise and shine!")
  ; (u "good afternoon", u "Good afternoon! Hope you're having a great day!")
  ; (u "good evening", u "Good evening! How was your day?")
  ; (u "greetings", u "Greetings and salutations!")
  ; (u "salutations", u "Salutations! A pleasure to meet you!")
  ; (u "hola", u "¡Hola! Bienvenido!")
  ; (u "bonjour", u "Bonjour! Comment allez-vous?")
  ; (u "hallo", u "Hallo! Wie geht's?")
  ; (u "ciao", u "Ciao! Piacere di conoscerti!")
  ; (u "namaste", u "Namaste! 🙏") ].

Definition show_help : str :=
  print (nl ++ str_mul (u "=") 50)
  ++ print (u "HELLO RESPONSE SCRIPT - HELP")
  ++ print (str_mul (u "=") 50)
  ++ print (nl ++ u "This script responds to various greeting forms.")
  ++ print (nl ++ u "Commands:")
  ++ print (u "  Greetings: hello, hi, hey, hello there, good morning,")
  ++ print (u "            good afternoon, good evening, greetings,")
  ++ print (u "            salutations, hola, bonjour, hallo, ciao, namaste")
  ++ print (u "  Help:      help, ?, commands, info, usage")
  ++ print (u "  Exit:      exit, quit, q, bye, goodbye, stop, end")
  ++ print (nl ++ u "The script is case-insensitive and handles extra spaces.")
  ++ print (str_mul (u "=") 50 ++ nl).

Definition is_hello_command := is_hello_command hello_patterns.
Definition show_greeting := show_greeting responses.
Definition main_loop_body := main_loop_body hello_patterns responses show_help.
Definition main_loop := main_loop hello_patterns responses show_help.
Definition main := main hello_patterns responses show_help.

End Hello.

(** ** [hello_second.py] *)

Module HelloSecond.

Definition hello_patterns : list str :=
  [ u "^hello$"
  ; u "^hi$"
  ; u "^hey$"
  ; u "^hello there$"
  ; u "^hi there$"
  ; u "^hey there$"
  ; u "^howdy$"
  ; u "^yo$"
  ; u "^sup$"
  ; u "^what\'?s up$"
  ; u "^whats up$"
  ; u "^wassup$"
  ; u "^good morning$"
  ; u "^good afternoon$"
  ; u "^good evening$"
  ; u "^good day$"
  ; u "^greetings$"
  ; u "^salutations$"
  ; u "^welcome$"
  ; u "^how are you$"
  ; u "^how do you do$"
  ; u "^pleased to meet you$"
  ; u "^nice to meet you$"
  ; u "^hola$"
  ; u "^buenos dias$"
  ; u "^buenas tardes$"
  ; u "^buenas noches$"
  ; u "^bonjour$"
  ; u "^salut$"
  ; u "^bonsoir$"
  ; u "^hallo$"
  ; u "^guten tag$"
  ; u "^guten morgen$"
  ; u "^ciao$"
  ; u "^buongiorno$"
  ; u "^buonasera$"
  ; u "^oi$"
  ; u "^ola$"
  ; u "^bom dia$"
  ; u "^namaste$"
  ; u "^konnichiwa$"
  ; u "^ni hao$"
  ; u "^annyeong$"
  ; u "^sawadee$"
  ; u "^shalom$"
  ; u "^salam$"
  ; u "^jambo$"
  ; u "^aloha$"
  ; u "^ahoy$"
  ; u "^privyet$"
  ; u "^zdravo$" ].

Definition responses : dict :=
  [ (u "hello", u "Hello! Welcome!")
  ; (u "hi", u "Hi there! Nice to see you!")
  ; (u "hey", u "Hey! How's it going?")
  ; (u "hello there", u "Hello there! General Kenobi... 😉")
  ; (u "hi there", u "Hi there! Wonderful to see you!")
  ; (u "hey there", u "Hey there! What's happening?")
  ; (u "howdy", u "Howdy, partner! 🤠")
  ; (u "yo", u "Yo! What's good?")
  ; (u "sup", u "Sup! How's everything?")
  ; (u "what's up", u "Not much, you? What's up with you?")
  ; (u "whats up", u "Not much, you? What's up with you?")
  ; (u "wassup", u "Wassup! Everything cool?")
  ; (u "good morning", u "Good morning! Rise and shine!")
  ; (u "good afternoon", u "Good afternoon! Hope you're having a great day!")
  ; (u "good evening", u "Good evening! How was your day?")
  ; (u "good day", u "Good day! Wishing you the best!")
  ; (u "greetings", u "Greetings and salutations!")
  ; (u "salutations", u "Salutations! A pleasure to meet you!")
  ; (u "welcome", u "Welcome! So glad you're here!")
  ; (u "how are you", u "I'm doing great, thanks for asking! How are you?")
  ; (u "how do you do", u "How do you do? Pleased to make your acquaintance!")
  ; (u "pleased to meet you", u "Pleased to meet you too! The pleasure is mine!")
  ; (u "nice to meet you", u "Nice to meet you as well! Great to connect!")
  ; (u "hola", u "¡Hola! ¡Bienvenido!")
  ; (u "buenos dias", u "¡Buenos días! ¡Que tengas un excelente día!")
  ; (u "buenas tardes", u "¡Buenas tardes! ¿Cómo estás?")
  ; (u "buenas noches", u "¡Buenas noches! Que descanses bien.")
  ; (u "bonjour", u "Bonjour! Comment allez-vous?")
  ; (u "salut", u "Salut! Ça va?")
  ; (u "bonsoir", u "Bonsoir! Bonne soirée!")
  ; (u "hallo", u "Hallo! Wie geht's?")
  ; (u "guten tag", u "Guten Tag! Wie geht es Ihnen?")
  ; (u "guten morgen", u "Guten Morgen! Schönen Tag noch!")
  ; (u "ciao", u "Ciao! Piacere di conoscerti!")
  ; (u "buongiorno", u "Buongiorno! Come stai?")
  ; (u "buonasera", u "Buonasera! Bella serata!")
  ; (u "oi", u "Oi! Tudo bem?")
  ; (u "ola", u "Olá! Como vai?")
  ; (u "bom dia", u "Bom dia! Tenha um ótimo dia!")
  ; (u "namaste", u "Namaste! 🙏")
  ; (u "konnichiwa", u "こんにちは (Konnichiwa)! Welcome!")
  ; (u "ni hao", u "你好 (Nǐ hǎo)! Hello!")
  ; (u "annyeong", u "안녕 (Annyeong)! Hello!")
  ; (u "sawadee", u "สวัสดี (Sawadee)! Welcome!")
  ; (u "shalom", u "Shalom! שלום Peace be with you!")
  ; (u "salam", u "As-salamu alaykum! السلام عليكم Peace!")
  ; (u "jambo", u "Jambo! Habari gani?")
  ; (u "aloha", u "Aloha! 🌺 Welcome to paradise!")
  ; (u "ahoy", u "Ahoy there, matey! ⚓")
  ; (u "privyet", u "Привет (Privyet)! Как дела?")
  ; (u "zdravo", u "Zdravo! Kako si?") ].

Definition show_help : str :=
  print (nl ++ str_mul (u "=") 50)
  ++ print (u "HELLO RESPONSE SCRIPT - HELP")
  ++ print (str_mul (u "=") 50)
  ++ print (nl ++ u "This script responds to various greeting forms.")
  ++ print (nl ++ u "Commands:")
  ++ print (u "  English:   hello, hi, hey, howdy, yo, sup, what's up,")
  ++ print (u "             good morning/afternoon/evening/day, greetings,")
  ++ print (u "             how are you, nice to meet you, welcome")
  ++ print (u "  Spanish:   hola, buenos dias, buenas tardes, buenas noches")
  ++ print (u "  French:    bonjour, salut, bonsoir")
  ++ print (u "  German:    hallo, guten tag, guten morgen")
  ++ print (u "  Italian:   ciao, buongiorno, buonasera")
  ++ print (u "  Portuguese: oi, ola, bom dia")
  ++ print (u "  Japanese:  konnichiwa")
  ++ print (u "  Chinese:   ni hao")
  ++ print (u "  Korean:    annyeong")
  ++ print (u "  Thai:      sawadee")
  ++ print (u "  Hindi:     namaste")
  ++ print (u "  Hebrew:    shalom")
  ++ print (u "  Arabic:    salam")
  ++ print (u "  Swahili:   jambo")
  ++ print (u "  Hawaiian:  aloha")
  ++ print (u "  Russian:   privyet")
  ++ print (u "  Serbian:   zdravo")
  ++ print (nl ++ u "  Help:      help, ?, commands, info, usage")
  ++ print (u "  Exit:      exit, quit, q, bye, goodbye, stop, end")
  ++ print (nl ++ u "The script is case-insensitive and handles extra spaces.")
  ++ print (str_mul (u "=") 50 ++ nl).

Definition is_hello_command := is_hello_command hello_patterns.
Definition show_greeting := show_greeting responses.
Definition main_loop_body := main_loop_body hello_patterns responses show_help.
Definition main_loop := main_loop hello_patterns responses show_help.
Definition main := main hello_patterns responses show_help.

End HelloSecond.

(** * The job-status endpoint, [app.py] *)

Module App.

(** [request.args]: the parameters of the query string, in order.
    [request.args.get(key)] is the first value given for [key], or
    [None]. *)
Definition MultiDict := list (str * str).

Fixpoint args_get (args : MultiDict) (key : str) : option str :=
  match args with
  | [] => None
  | (k, v) :: args' => if str_eqb k key then Some v else args_get args' key
  end.

(** [jobname == 'literal'], where [jobname] may be [None]. *)
Definition eq_literal (value : option str) (literal : str) : bool :=
  match value with
  | None => false
  | Some s => str_eqb s literal
  end.

(** What a view function returns: a body, or a body and a status. *)
Inductive view_result :=
| Body (body : str)
| BodyStatus (body : str) (status : N).

(** The handler may suspend the serving thread before it returns:
    its result comes with the seconds slept, in order. *)
Definition sleeps := list N.

Definition index : sleeps * view_result :=
  ([], Body (u "Welcome. Use /job?jobname=xxx")).

Definition job_handler (args : MultiDict) : sleeps * view_result :=
  let jobname := args_get args (u "jobname") in
  if eq_literal jobname (u "normal") then ([], Body (u "0"))
  else if eq_literal jobname (u "error") then ([], Body (u "1"))
  else if eq_literal jobname (u "timeout") then ([3600], Body (u "0"))
  else ([], BodyStatus (u "Invalid jobname") 400).

(** Flask's [make_response]: a body alone is sent with status 200. *)
Record response := { body : str; status : N }.

Definition make_response (rv : view_result) : response :=
  match rv with
  | Body b => {| body := b; status := 200 |}
  | BodyStatus b s => {| body := b; status := s |}
  end.

(** What the client of [/job] observes: the time the handler slept, then
    the response. *)
Definition serve_job (args : MultiDict) : sleeps * response :=
  let '(slept, rv) := job_handler args in (slept, make_response rv).

(** The query string has a parameter [key]. *)
Definition has_param (args : MultiDict) (key : str) : bool :=
  existsb (fun kv => str_eqb (fst kv) key) args.

End App.

(** * Vocabulary of the statements *)

(** ** The lowercase table, entry by entry *)

Definition expand_run (r : N * N * N * N) : list (char * char) :=
  let '(first, last, stride, image) := r in
  map (fun k => (first + stride * N.of_nat k, image + stride * N.of_nat k))
      (seq 0 (S (N.to_nat ((last - first) / stride)))).

Definition expand_runs (runs : list (N * N * N * N)) : list (char * char) :=
  flat_map expand_run runs.

(** Every character the table maps, with its image. *)
Definition lowercase_pairs : list (char * char) :=
  Eval vm_compute in expand_runs lowercase_runs.

(** ** Strings in normal form *)

(** A character is lowered when the lowercase mapping leaves it alone. *)
Definition lowered (c : char) : Prop := unicode_tolower c = c.

(** The string starts with a space. *)
Definition hdspace (s : str) : bool :=
  match s with
  | [] => false
  | c :: _ => isspace c
  end.

(** The string ends with a space. *)
Fixpoint lastspace (s : str) : bool :=
  match s with
  | [] => false
  | c :: s' =>
    match s' with
    | [] => isspace c
    | _ :: _ => lastspace s'
    end
  end.

(** A subject as normalisation leaves it: lowered, and not ended by a
    space. *)
Definition normal (n : str) : Prop :=
  Forall lowered n /\ lastspace n = false.

(** U+0131 (dotless i) and U+017F (long s) are lowercase letters:
    [str.lower()] keeps them.  With [re.IGNORECASE] they match the
    letters [i] and [s] of a pattern (the documentation of [re] lists
    them among the non-ASCII matches of [[a-z]]).  [no_extra_case s] says
    that [s] has neither. *)
Definition no_extra_case (s : str) : bool :=
  forallb (fun x => negb (x =? 0x131) && negb (x =? 0x17F)) s.

(** ** Variants of a phrase

    A variant of a phrase is the phrase with some of its letters in
    upper case, between two runs of white space. *)

Definition ascii_upper (c : char) : char :=
  if is_ascii_lower c then c - 32 else c.

Definition same_letter (c c' : char) : Prop :=
  c' = c \/ c' = ascii_upper c.

Definition variant_of (phrase s : str) : Prop :=
  exists pre body post,
    s = pre ++ body ++ post
    /\ forallb isspace pre = true
    /\ forallb isspace post = true
    /\ Forall2 same_letter phrase body.

(** The phrases of the tables: ASCII, without capitals, and neither
    started nor ended by a space. *)
Definition plain_char (c : char) : bool :=
  (c <? 0x80) && negb (is_ascii_upper c).

Definition plain_phrase (k : str) : bool :=
  forallb plain_char k && negb (hdspace k) && negb (lastspace k).

(** ** The strings a pattern stands for *)

(** The strings an anchored sequence of literals stands for, on normal
    subjects.  It is defined when the sequence ends with [$] and has no
    other anchor. *)
Fixpoint lang (p : list node) : option (list str) :=
  match p with
  | [] => None
  | n :: p' =>
    match n with
    | AT AT_BEGINNING => None
    | AT AT_END =>
      match p' with
      | [] => Some [[]]
      | _ :: _ => None
      end
    | LITERAL av =>
      option_map (map (cons (unicode_tolower av))) (lang p')
    | MAX_REPEAT_0_1 av =>
      option_map (fun L => map (cons (unicode_tolower av)) L ++ L) (lang p')
    end
  end.

(** The strings a pattern [^...$] of the fragment stands for. *)
Definition pattern_lang (pattern : str) : option (list str) :=
  match sre_parse pattern with
  | Some (AT AT_BEGINNING :: body) =>
    match sre_compile true body with
    | Some _ => lang body
    | None => None
    end
  | _ => None
  end.

Fixpoint patterns_lang (patterns : list str) : option (list str) :=
  match patterns with
  | [] => Some []
  | pattern :: patterns' =>
    match pattern_lang pattern, patterns_lang patterns' with
    | Some L, Some M => Some (L ++ M)
    | _, _ => None
    end
  end.

(** The patterns stand for the keys of the dictionary, no more and no
    less. *)
Definition patterns_are_keys (hello_patterns : list str) (responses : dict)
  : bool :=
  match patterns_lang hello_patterns with
  | Some L => forallb (list_contains (keys responses)) L
              && forallb (list_contains L) (keys responses)
  | None => false
  end.

(** The pattern is in the modelled fragment of [re]. *)
Definition supported (pattern : str) : bool :=
  match sre_parse pattern with
  | Some p =>
    match sre_compile IGNORECASE p with
    | Some _ => true
    | None => false
    end
  | None => false
  end.

(** The phrase of a pattern [^phrase$] without quantifier. *)
Fixpoint literals (body : list node) : option str :=
  match body with
  | [AT AT_END] => Some []
  | LITERAL av :: body' => option_map (cons av) (literals body')
  | _ => None
  end.

Definition fixed_phrase (pattern : str) : option str :=
  match sre_parse pattern with
  | Some (AT AT_BEGINNING :: body) => literals body
  | _ => None
  end.

Definition is_fixed_phrase (pattern : str) : bool :=
  match fixed_phrase pattern with
  | Some _ => true
  | None => false
  end.

(** ** The tables of a script *)

(** What [show_greeting] prints for a response. *)
Definition greeting (response : str) : str :=
  print (nl ++ u "🌟 " ++ response ++ u " 🌟" ++ nl).

(** Every key is plain, not empty, matched by a pattern, bound to its
    response, and neither an exit nor a help keyword. *)
Definition greeted_keys (hello_patterns : list str) (responses : dict) : bool :=
  forallb (fun kv =>
             plain_phrase (fst kv)
             && negb (str_eqb (fst kv) [])
             && any_pattern_matches hello_patterns (fst kv)
             && str_eqb (dict_get responses (fst kv) fallback_response) (snd kv)
             && negb (list_contains exit_commands (fst kv))
             && negb (list_contains help_commands (fst kv)))
          responses.

(** Every key is in normal form, and no response is the fallback. *)
Definition normalized_keys (responses : dict) : bool :=
  forallb (fun kv => str_eqb (normalize_input (Some (fst kv))) (fst kv)
                     && negb (str_eqb (snd kv) fallback_response))
          responses.

(** ** The classification of the specification

    The specification describes the loop as a classifier followed by a
    responder.  [spec_classify] and [spec_respond] follow its words; the
    theorems compare them with [main_loop_body], which follows the
    code. *)

Inductive outcome := Terminate | ShowHelp | GreetingMatch | Unrecognized.

(** Section 4.2: membership in the exit keywords, then in the help
    keywords, then in the phrase catalog. *)
Definition spec_classify (catalog : list str) (normalized : str) : outcome :=
  if list_contains exit_commands normalized then Terminate
  else if list_contains help_commands normalized then ShowHelp
  else if list_contains catalog normalized then GreetingMatch
  else Unrecognized.

(** Section 4.3: the answer to each outcome.  Unrecognized and empty
    input both get a prompt to retry. *)
Definition spec_respond (responses : dict) (show_help : str)
           (o : outcome) (user_input : str) : str * control :=
  match o with
  | Terminate => (farewell, Break)
  | ShowHelp => (show_help, Continue)
  | GreetingMatch => (show_greeting responses (Some user_input), Continue)
  | Unrecognized =>
    (match strip user_input with
     | [] => retry_prompt
     | _ :: _ => unrecognized user_input
     end, Continue)
  end.

(** The checks of the loop of [main], in the order it makes them. *)
Definition loop_classify (hello_patterns : list str) (user_input : str)
  : outcome :=
  if is_exit_command (Some user_input) then Terminate
  else if is_help_command (Some user_input) then ShowHelp
  else if is_hello_command hello_patterns (Some user_input) then GreetingMatch
  else Unrecognized.

(** ** Vocabulary of the further properties *)

(** U+0131 and U+017F read as the letters they match when case is
    ignored. *)
Definition fold_extra (c : char) : char :=
  if c =? 0x131 then ch "i" else if c =? 0x17F then ch "s" else c.

Definition ascii_tolower (c : char) : char :=
  if is_ascii_upper c then c + 32 else c.

Definition is_ascii (s : str) : bool := forallb (fun c => c <? 0x80) s.

(** The event ends the loop of [main]: an exit command, an interrupt, or
    an error of [input()]. *)
Definition stops (ev : input_event) : bool :=
  match ev with
  | Line s =>
    match strip s with
    | [] => false
    | _ :: _ => is_exit_command (Some s)
    end
  | KeyboardInterrupt | OtherException _ => true
  end.

(** What one turn of the loop writes for a line: the prompt, then the
    answer. *)
Definition line_output (hello_patterns : list str) (responses : dict)
           (show_help : str) (s : str) : str :=
  input_prompt ++ fst (main_loop_body hello_patterns responses show_help s).



(** * Facts about the runtime model *)

Module PyFacts.

Lemma str_eqb_eq (a b : str) : str_eqb a b = true <-> a = b.
Proof.
  unfold str_eqb. destruct (list_eq_dec N.eq_dec a b); split; congruence.
Qed.

Lemma str_eqb_refl (a : str) : str_eqb a a = true.
Proof. now apply str_eqb_eq. Qed.

Lemma in_run_expand (c : char) (r : N * N * N * N) :
  in_run c r = true ->
  let '(first, _, _, image) := r in In (c, image + (c - first)) (expand_run r).
Proof.
  destruct r as [[[first last] stride] image]. unfold in_run, expand_run.
  intros H. apply andb_prop in H as [H Hmod]. apply andb_prop in H as [Hlo Hhi].
  apply N.leb_le in Hlo, Hhi. apply N.eqb_eq in Hmod.
  pose proof (N.Div0.div_mod (c - first) stride) as Hdm.
  rewrite Hmod, N.add_0_r in Hdm.
  apply in_map_iff. exists (N.to_nat ((c - first) / stride)). split.
  - rewrite N2Nat.id, <- Hdm. f_equal. lia.
  - apply in_seq.
    assert (Hle : (c - first) / stride <= (last - first) / stride)
      by (apply N.Div0.div_le_mono; lia).
    revert Hle.
    generalize ((c - first) / stride), ((last - first) / stride). lia.
Qed.

Lemma run_lookup_expand (runs : list (N * N * N * N)) (c v : char) :
  run_lookup runs c = Some v -> In (c, v) (expand_runs runs).
Proof.
  induction runs as [|r runs IH]; simpl; [discriminate|].
  destruct (in_run c r) eqn:Hin.
  - pose proof (in_run_expand c r Hin) as H.
    destruct r as [[[first last] stride] image].
    intros [= <-]. apply in_or_app. now left.
  - intros H. apply in_or_app. right. now apply IH.
Qed.

Lemma unicode_tolower_cases (c : char) :
  unicode_tolower c = c \/ In (c, unicode_tolower c) lowercase_pairs.
Proof.
  unfold unicode_tolower.
  destruct (run_lookup lowercase_runs c) as [v|] eqn:H; [right|now left].
  apply run_lookup_expand in H.
  change lowercase_pairs with (expand_runs lowercase_runs).
  exact H.
Qed.

(** A property of [c] and its lowercase holds for all characters once it
    holds on the unmapped ones and is checked on the table. *)
Lemma unicode_tolower_ind (P : char -> char -> bool) :
  forallb (fun p => P (fst p) (snd p)) lowercase_pairs = true ->
  forall c, (unicode_tolower c = c -> P c c = true) ->
            P c (unicode_tolower c) = true.
Proof.
  intros Hall c Hfix.
  destruct (unicode_tolower_cases c) as [E|Hin].
  - rewrite E. now apply Hfix.
  - rewrite forallb_forall in Hall. exact (Hall _ Hin).
Qed.

(** Lowercase characters stay as they are. *)
Lemma unicode_tolower_idem (c : char) :
  unicode_tolower (unicode_tolower c) = unicode_tolower c.
Proof.
  apply N.eqb_eq.
  apply (unicode_tolower_ind (fun _ v => unicode_tolower v =? v)).
  - vm_compute. reflexivity.
  - intros E. apply N.eqb_eq. exact E.
Qed.

(** No cased character is a space, nor is its lowercase. *)
Lemma mapped_not_space (c v : char) :
  In (c, v) lowercase_pairs -> isspace c = false /\ isspace v = false.
Proof.
  intros Hin.
  assert (H : forallb (fun p => negb (isspace (fst p)) && negb (isspace (snd p)))
                      lowercase_pairs = true) by (vm_compute; reflexivity).
  rewrite forallb_forall in H. specialize (H _ Hin). simpl in H.
  apply andb_prop in H as [H1 H2].
  now apply negb_true_iff in H1, H2.
Qed.

Lemma isspace_unicode_tolower (c : char) :
  isspace (unicode_tolower c) = isspace c.
Proof.
  destruct (unicode_tolower_cases c) as [E|Hin]; [now rewrite E|].
  apply mapped_not_space in Hin as [H1 H2]. congruence.
Qed.

Lemma unicode_tolower_ascii (c : char) :
  c < 0x80 ->
  unicode_tolower c = if is_ascii_upper c then c + 32 else c.
Proof.
  intros Hc. destruct (is_ascii_upper c) eqn:Hup.
  - unfold is_ascii_upper in Hup. apply andb_prop in Hup as [Hlo Hhi].
    unfold unicode_tolower, lowercase_runs, run_lookup, in_run.
    rewrite Hlo, Hhi, N.mod_1_r, N.eqb_refl. cbv [andb].
    apply N.leb_le in Hlo. lia.
  - destruct (unicode_tolower_cases c) as [E|Hin]; [exact E|].
    assert (H : forallb (fun p => negb (fst p <? 0x80) || is_ascii_upper (fst p))
                        lowercase_pairs = true) by (vm_compute; reflexivity).
    rewrite forallb_forall in H. specialize (H _ Hin). simpl in H.
    apply N.ltb_lt in Hc. rewrite Hc, Hup in H. discriminate.
Qed.

(** ** [str.lower()] *)

Lemma lowered_not_special (c : char) :
  lowered c -> (c =? 0x3A3) = false /\ (c =? 0x130) = false.
Proof.
  intros H. split; apply N.eqb_neq; intros ->; vm_compute in H; discriminate.
Qed.

Lemma lower_ucs4_lowered (before : str) (c : char) (after : str) :
  Forall lowered (lower_ucs4 before c after).
Proof.
  unfold lower_ucs4. destruct (c =? 0x3A3).
  - unfold handle_capital_sigma.
    match goal with |- context [if ?b then _ else _] => destruct b end;
      repeat constructor.
  - unfold tolower_full. destruct (c =? 0x130); repeat constructor.
    apply unicode_tolower_idem.
Qed.

Lemma do_lower_lowered (before s : str) : Forall lowered (do_lower before s).
Proof.
  revert before. induction s as [|c s IH]; intros before; simpl.
  - constructor.
  - apply Forall_app. split; [apply lower_ucs4_lowered | apply IH].
Qed.

Lemma do_lower_fixed (before s : str) :
  Forall lowered s -> do_lower before s = s.
Proof.
  revert before. induction s as [|c s IH]; intros before H; simpl.
  - reflexivity.
  - inversion H as [|? ? Hc Hs]; subst.
    destruct (lowered_not_special c Hc) as [E1 E2].
    unfold lower_ucs4, tolower_full. rewrite E1, E2, Hc. simpl.
    f_equal. now apply IH.
Qed.

Lemma lower_idempotent (s : str) : lower (lower s) = lower s.
Proof. unfold lower. apply do_lower_fixed, do_lower_lowered. Qed.

(** ** [str.strip()] *)

Lemma lstrip_fixed (s : str) : hdspace s = false -> lstrip s = s.
Proof. destruct s as [|c s]; simpl; [reflexivity|]. now intros ->. Qed.

Lemma hdspace_lstrip (s : str) : hdspace (lstrip s) = false.
Proof.
  induction s as [|c s IH]; simpl; [reflexivity|].
  destruct (isspace c) eqn:E; [exact IH|]. simpl. exact E.
Qed.

Lemma lastspace_app (s t : str) :
  t <> [] -> lastspace (s ++ t) = lastspace t.
Proof.
  intros Ht. induction s as [|c s IH]; [reflexivity|].
  simpl. destruct (s ++ t) eqn:E; [|exact IH].
  apply app_eq_nil in E as [_ E]. contradiction.
Qed.

Lemma lastspace_rev (s : str) : lastspace s = hdspace (rev s).
Proof.
  induction s as [|c s _] using rev_ind; [reflexivity|].
  rewrite rev_unit, lastspace_app by discriminate. reflexivity.
Qed.

Lemma lstrip_app_nonspace (s : str) (c : char) :
  isspace c = false -> lstrip (s ++ [c]) = lstrip s ++ [c].
Proof.
  intros Hc. induction s as [|x s IH]; simpl.
  - now rewrite Hc.
  - destruct (isspace x); [exact IH | reflexivity].
Qed.

Lemma rstrip_fixed (s : str) : lastspace s = false -> rstrip s = s.
Proof.
  intros H. unfold rstrip. rewrite lastspace_rev in H.
  rewrite lstrip_fixed by exact H. apply rev_involutive.
Qed.

Lemma lastspace_rstrip (s : str) : lastspace (rstrip s) = false.
Proof.
  unfold rstrip. rewrite lastspace_rev, rev_involutive. apply hdspace_lstrip.
Qed.

Lemma hdspace_rstrip (s : str) : hdspace s = false -> hdspace (rstrip s) = false.
Proof.
  destruct s as [|c s]; [reflexivity|]. simpl. intros Hc.
  unfold rstrip. simpl. rewrite lstrip_app_nonspace by exact Hc.
  rewrite rev_unit. exact Hc.
Qed.

Lemma strip_trimmed (s : str) :
  hdspace (strip s) = false /\ lastspace (strip s) = false.
Proof.
  unfold strip. split.
  - apply hdspace_rstrip, hdspace_lstrip.
  - apply lastspace_rstrip.
Qed.

Lemma strip_fixed (s : str) :
  hdspace s = false -> lastspace s = false -> strip s = s.
Proof.
  intros H1 H2. unfold strip. rewrite lstrip_fixed by exact H1.
  now apply rstrip_fixed.
Qed.

Lemma lstrip_spaces (s : str) : forallb isspace s = true -> lstrip s = [].
Proof.
  induction s as [|c s IH]; simpl; [reflexivity|].
  intros H. apply andb_prop in H as [Hc Hs]. rewrite Hc. now apply IH.
Qed.

Lemma strip_spaces (s : str) : forallb isspace s = true -> strip s = [].
Proof. intros H. unfold strip. now rewrite lstrip_spaces. Qed.

(** Lowering keeps spaces where they are: each character gives at least
    one character, and spaces only when it is one. *)
Lemma lower_ucs4_shape (before : str) (c : char) (after : str) :
  exists d ds, lower_ucs4 before c after = d :: ds
               /\ isspace d = isspace c
               /\ lastspace (d :: ds) = isspace c.
Proof.
  unfold lower_ucs4. destruct (c =? 0x3A3) eqn:E1.
  - apply N.eqb_eq in E1. subst c. unfold handle_capital_sigma.
    match goal with |- context [if ?b then _ else _] => destruct b end;
      eexists; eexists; repeat split.
  - unfold tolower_full. destruct (c =? 0x130) eqn:E2.
    + apply N.eqb_eq in E2. subst c. eexists; eexists; repeat split.
    + eexists; eexists; repeat split; simpl; apply isspace_unicode_tolower.
Qed.

Lemma hdspace_do_lower (before s : str) :
  hdspace (do_lower before s) = hdspace s.
Proof.
  destruct s as [|c s]; [reflexivity|]. simpl.
  destruct (lower_ucs4_shape before c s) as (d & ds & -> & Hd & _).
  exact Hd.
Qed.

Lemma lastspace_do_lower (before s : str) :
  lastspace (do_lower before s) = lastspace s.
Proof.
  revert before. induction s as [|c s IH]; intros before; [reflexivity|].
  cbn [do_lower].
  destruct (lower_ucs4_shape before c s) as (d & ds & E & _ & Hl).
  destruct s as [|c' s'].
  - cbn [do_lower]. rewrite app_nil_r, E. exact Hl.
  - rewrite lastspace_app.
    + rewrite IH. reflexivity.
    + cbn [do_lower].
      destruct (lower_ucs4_shape (c :: before) c' s') as (d' & ds' & -> & _).
      discriminate.
Qed.

Lemma strip_lower_strip (s : str) : strip (lower (strip s)) = lower (strip s).
Proof.
  destruct (strip_trimmed s) as [H1 H2].
  apply strip_fixed; unfold lower.
  - now rewrite hdspace_do_lower.
  - now rewrite lastspace_do_lower.
Qed.

End PyFacts.

(** * Facts about matching *)

Module ReFacts.

Import PyFacts.

Lemma list_contains_In (l : list str) (x : str) :
  list_contains l x = true <-> In x l.
Proof.
  unfold list_contains. rewrite existsb_exists. split.
  - intros (y & Hy & E). apply str_eqb_eq in E. now subst.
  - intros H. exists x. split; [exact H | apply str_eqb_refl].
Qed.

Lemma normal_tail (x : char) (n : str) : normal (x :: n) -> normal n.
Proof.
  intros [Hl Hs]. split.
  - now inversion Hl.
  - destruct n; [reflexivity | exact Hs].
Qed.

Lemma at_end_normal (n : str) : normal n -> (at_end n = true <-> n = []).
Proof.
  intros [_ Hs]. destruct n as [|c [|c' n]]; simpl in *.
  - tauto.
  - split; [|discriminate]. intros E. apply N.eqb_eq in E. subst c.
    vm_compute in Hs. discriminate.
  - split; discriminate.
Qed.

(** On a lowered subject character other than U+0131 and U+017F, a
    literal compiled with [re.IGNORECASE] tests equality with its
    lowercase. *)
Lemma compile_literal_matches (av : char) (c : charcode) (x : char) :
  compile_literal true av = Some c ->
  lowered x -> x <> 0x131 -> x <> 0x17F ->
  char_matches c x = (x =? unicode_tolower av).
Proof.
  unfold compile_literal. cbn [negb].
  destruct (0x80 <=? av) eqn:Hav; [discriminate|].
  apply N.leb_gt in Hav. intros Hc Hx H1 H2.
  apply N.eqb_neq in H1, H2.
  destruct (is_ascii_letter av) eqn:Hlet; cbn [negb] in Hc.
  - unfold EXTRA_CASES in Hc.
    destruct (unicode_tolower av =? ch "i");
      [|destruct (unicode_tolower av =? ch "s")];
      injection Hc as <-; simpl; rewrite Hx, ?H1, ?H2;
      now rewrite ?orb_false_r.
  - injection Hc as <-. simpl.
    rewrite (unicode_tolower_ascii av Hav).
    unfold is_ascii_letter in Hlet. apply orb_false_iff in Hlet as [-> _].
    reflexivity.
Qed.

Lemma in_map_cons (x y : char) (n : str) (L : list str) :
  In (x :: n) (map (cons y) L) <-> x = y /\ In n L.
Proof.
  rewrite in_map_iff. split.
  - intros (m & [= <- <-] & H). now split.
  - intros [-> H]. now exists n.
Qed.

Lemma sre_match_lang (p : list node) :
  forall code L, sre_compile true p = Some code -> lang p = Some L ->
  forall b n, normal n -> no_extra_case n = true ->
              (sre_match code b n = true <-> In n L).
Proof.
  induction p as [|nd p IH]; intros code L Hc HL b n Hn Hx; [discriminate|].
  cbn [sre_compile] in Hc.
  destruct (sre_compile true p) as [code'|] eqn:Hc'; [|discriminate].
  destruct nd as [[|]|av|av]; cbn [lang] in HL.
  - discriminate.
  - destruct p; [|discriminate]. injection HL as <-.
    injection Hc' as <-. injection Hc as <-. cbn [sre_match].
    rewrite andb_true_r, (at_end_normal n Hn). simpl. intuition congruence.
  - destruct (compile_literal true av) as [c|] eqn:Hlit; [|discriminate].
    injection Hc as <-.
    destruct (lang p) as [L'|]; [|discriminate]. injection HL as <-.
    cbn [sre_match]. destruct n as [|x n].
    + split; [discriminate|]. intros H. apply in_map_iff in H.
      destruct H as (? & ? & _). discriminate.
    + simpl in Hx. apply andb_prop in Hx as [Hx1 Hx].
      apply andb_prop in Hx1 as [H1 H2].
      apply negb_true_iff, N.eqb_neq in H1, H2.
      assert (Hlow : lowered x) by (destruct Hn as [Hl _]; now inversion Hl).
      rewrite (compile_literal_matches av c x Hlit Hlow H1 H2).
      rewrite andb_true_iff, N.eqb_eq, in_map_cons.
      rewrite (IH code' L' eq_refl eq_refl false n (normal_tail x n Hn) Hx).
      reflexivity.
  - destruct (compile_literal true av) as [c|] eqn:Hlit; [|discriminate].
    injection Hc as <-.
    destruct (lang p) as [L'|]; [|discriminate]. injection HL as <-.
    cbn [sre_match]. rewrite orb_true_iff, in_app_iff.
    rewrite (IH code' L' eq_refl eq_refl b n Hn Hx).
    destruct n as [|x n].
    + split; [intros [H|H]; [discriminate | now right]|].
      intros [H|H]; [|now right]. apply in_map_iff in H.
      destruct H as (? & ? & _). discriminate.
    + simpl in Hx. apply andb_prop in Hx as [Hx1 Hx].
      apply andb_prop in Hx1 as [H1 H2].
      apply negb_true_iff, N.eqb_neq in H1, H2.
      assert (Hlow : lowered x) by (destruct Hn as [Hl _]; now inversion Hl).
      rewrite (compile_literal_matches av c x Hlit Hlow H1 H2).
      rewrite andb_true_iff, N.eqb_eq, in_map_cons.
      rewrite (IH code' L' eq_refl eq_refl false n (normal_tail x n Hn) Hx).
      reflexivity.
Qed.

Lemma re_match_lang (pattern : str) (L : list str) (n : str) :
  pattern_lang pattern = Some L ->
  normal n -> no_extra_case n = true ->
  (re_match pattern n IGNORECASE = true <-> In n L).
Proof.
  unfold pattern_lang, re_match, IGNORECASE. intros HL Hn Hx.
  destruct (sre_parse pattern) as [[|[[|]|?|?] body]|]; try discriminate.
  cbn [sre_compile].
  destruct (sre_compile true body) as [code|] eqn:Hc; [|discriminate].
  cbn [sre_match andb].
  exact (sre_match_lang body code L Hc HL true n Hn Hx).
Qed.

Lemma any_pattern_matches_lang (patterns : list str) :
  forall L n, patterns_lang patterns = Some L ->
  normal n -> no_extra_case n = true ->
  (any_pattern_matches patterns n = true <-> In n L).
Proof.
  induction patterns as [|p ps IH]; intros L n HL Hn Hx.
  - injection HL as <-. simpl. split; [discriminate | contradiction].
  - cbn [patterns_lang] in HL.
    destruct (pattern_lang p) as [Lp|] eqn:Hp; [|discriminate].
    destruct (patterns_lang ps) as [M|]; [|discriminate].
    injection HL as <-. cbn [any_pattern_matches]. rewrite in_app_iff.
    rewrite <- (re_match_lang p Lp n Hp Hn Hx), <- (IH M n eq_refl Hn Hx).
    destruct (re_match p n IGNORECASE); intuition congruence.
Qed.

End ReFacts.

(** * Facts about the greeting scripts *)

Module ScriptFacts.

Import PyFacts ReFacts.

(** ** Normalisation *)

Lemma normalize_input_normal (user_input : option str) :
  normal (normalize_input user_input).
Proof.
  destruct user_input as [s|]; [|split; [constructor | reflexivity]].
  unfold normalize_input, lower. split.
  - apply do_lower_lowered.
  - rewrite lastspace_do_lower. apply strip_trimmed.
Qed.

Lemma normalize_input_idempotent (user_input : option str) :
  normalize_input (Some (normalize_input user_input)) = normalize_input user_input.
Proof.
  destruct user_input as [s|]; [|reflexivity].
  unfold normalize_input. rewrite strip_lower_strip. apply lower_idempotent.
Qed.

Lemma normalize_input_spaces (s : str) :
  forallb isspace s = true -> normalize_input (Some s) = [].
Proof. intros H. unfold normalize_input. now rewrite strip_spaces. Qed.

Lemma ascii_forall (P : char -> bool) :
  forallb P (map N.of_nat (seq 0 128)) = true ->
  forall c, c < 0x80 -> P c = true.
Proof.
  intros H c Hc. rewrite forallb_forall in H. apply H.
  apply in_map_iff. exists (N.to_nat c). split.
  - apply N2Nat.id.
  - apply in_seq. lia.
Qed.

Lemma lower_ucs4_variant (before after : str) (c c' : char) :
  plain_char c = true -> same_letter c c' ->
  lower_ucs4 before c' after = [c].
Proof.
  intros Hc Hv. apply andb_prop in Hc as [Hlt Hup]. apply N.ltb_lt in Hlt.
  pose (ok := fun x => negb (x =? 0x3A3) && negb (x =? 0x130)
                      && (unicode_tolower x =? c)).
  assert (H : ok c && ok (ascii_upper c) = true).
  { pose proof
      (ascii_forall
         (fun c => implb (negb (is_ascii_upper c))
            (negb (c =? 0x3A3) && negb (c =? 0x130)
             && (unicode_tolower c =? c)
             && (negb (ascii_upper c =? 0x3A3)
                 && negb (ascii_upper c =? 0x130)
                 && (unicode_tolower (ascii_upper c) =? c))))
         ltac:(vm_compute; reflexivity) c Hlt) as H.
    cbv beta in H. rewrite Hup in H. exact H. }
  assert (Hok : ok c' = true).
  { apply andb_prop in H as [H1 H2]. destruct Hv as [-> | ->]; assumption. }
  unfold ok in Hok. apply andb_prop in Hok as [Hok H3].
  apply andb_prop in Hok as [H1 H2].
  apply negb_true_iff in H1, H2. apply N.eqb_eq in H3.
  unfold lower_ucs4, tolower_full. now rewrite H1, H2, H3.
Qed.

Lemma do_lower_variant (phrase body : str) :
  forallb plain_char phrase = true -> Forall2 same_letter phrase body ->
  forall before, do_lower before body = phrase.
Proof.
  intros Hp Hv. induction Hv as [|c c' phrase body Hc Hv IH]; intros before.
  - reflexivity.
  - simpl in Hp. apply andb_prop in Hp as [Hpc Hp].
    cbn [do_lower]. rewrite (lower_ucs4_variant before body c c' Hpc Hc).
    simpl. f_equal. now apply IH.
Qed.

Lemma forallb_rev (f : char -> bool) (s : str) :
  forallb f s = true -> forallb f (rev s) = true.
Proof.
  rewrite !forallb_forall. intros H x Hx. apply H. now apply in_rev.
Qed.

Lemma lstrip_app_spaces (pre s : str) :
  forallb isspace pre = true -> lstrip (pre ++ s) = lstrip s.
Proof.
  induction pre as [|c pre IH]; simpl; [reflexivity|].
  intros H. apply andb_prop in H as [Hc Hpre]. rewrite Hc. now apply IH.
Qed.

Lemma strip_padded (pre body post : str) :
  forallb isspace pre = true -> forallb isspace post = true ->
  hdspace body = false -> lastspace body = false ->
  strip (pre ++ body ++ post) = body.
Proof.
  intros Hpre Hpost Hh Hl. unfold strip.
  rewrite lstrip_app_spaces by exact Hpre.
  destruct body as [|c body].
  - simpl. rewrite lstrip_spaces by exact Hpost. reflexivity.
  - rewrite lstrip_fixed by exact Hh.
    unfold rstrip. rewrite rev_app_distr.
    rewrite lstrip_app_spaces by (apply forallb_rev; exact Hpost).
    apply (rstrip_fixed (c :: body) Hl).
Qed.

(** Normalising a variant of a plain phrase gives the phrase back. *)
Lemma normalize_input_variant (phrase s : str) :
  plain_phrase phrase = true -> variant_of phrase s ->
  normalize_input (Some s) = phrase.
Proof.
  intros Hp (pre & body & post & -> & Hpre & Hpost & Hv).
  unfold plain_phrase in Hp. apply andb_prop in Hp as [Hp Hl].
  apply andb_prop in Hp as [Hp Hh]. apply negb_true_iff in Hl, Hh.
  pose proof (do_lower_variant phrase body Hp Hv []) as Hlow.
  unfold normalize_input. rewrite (strip_padded pre body post Hpre Hpost).
  - exact Hlow.
  - rewrite <- (hdspace_do_lower [] body), Hlow. exact Hh.
  - rewrite <- (lastspace_do_lower [] body), Hlow. exact Hl.
Qed.

Lemma variant_not_blank (phrase s : str) :
  plain_phrase phrase = true -> phrase <> [] -> variant_of phrase s ->
  strip s <> [].
Proof.
  intros Hp Hne Hv E. apply Hne.
  rewrite <- (normalize_input_variant phrase s Hp Hv).
  unfold normalize_input. now rewrite E.
Qed.

End ScriptFacts.

(** * The loop of the scripts *)

Module LoopFacts.

Import PyFacts ReFacts ScriptFacts.

Section Loop.

Variable hello_patterns : list str.
Variable responses : dict.
Variable show_help : str.

(** No pattern of the script matches the empty string. *)
Hypothesis patterns_not_empty : any_pattern_matches hello_patterns [] = false.

Lemma main_loop_body_classify (user_input : str) :
  main_loop_body hello_patterns responses show_help user_input
  = spec_respond responses show_help
                 (loop_classify hello_patterns user_input) user_input.
Proof.
  unfold main_loop_body, loop_classify.
  destruct (strip user_input) as [|c t] eqn:E.
  - unfold is_exit_command, is_help_command, is_hello_command, normalize_input.
    rewrite E. cbn [lower do_lower]. rewrite patterns_not_empty.
    simpl. now rewrite E.
  - destruct (is_exit_command (Some user_input)); [reflexivity|].
    destruct (is_help_command (Some user_input)); [reflexivity|].
    destruct (is_hello_command hello_patterns (Some user_input));
      [reflexivity|].
    simpl. now rewrite E.
Qed.

(** The patterns stand for the keys of the dictionary. *)
Hypothesis Hkeys : patterns_are_keys hello_patterns responses = true.

Lemma is_hello_command_keys (user_input : option str) :
  no_extra_case (normalize_input user_input) = true ->
  (is_hello_command hello_patterns user_input = true
   <-> In (normalize_input user_input) (keys responses)).
Proof.
  intros Hx. unfold is_hello_command.
  pose proof Hkeys as Hk. unfold patterns_are_keys in Hk.
  destruct (patterns_lang hello_patterns) as [L|] eqn:HL; [|discriminate].
  apply andb_prop in Hk as [H1 H2].
  rewrite forallb_forall in H1, H2.
  rewrite (any_pattern_matches_lang hello_patterns L _ HL
             (normalize_input_normal user_input) Hx).
  split; intros H.
  - apply list_contains_In, H1, H.
  - apply list_contains_In, H2, H.
Qed.

Lemma loop_classify_spec (user_input : str) :
  no_extra_case (normalize_input (Some user_input)) = true ->
  loop_classify hello_patterns user_input
  = spec_classify (keys responses) (normalize_input (Some user_input)).
Proof.
  intros Hx. unfold loop_classify, spec_classify.
  unfold is_exit_command, is_help_command.
  destruct (list_contains exit_commands _); [reflexivity|].
  destruct (list_contains help_commands _); [reflexivity|].
  pose proof (is_hello_command_keys (Some user_input) Hx) as H.
  rewrite <- list_contains_In in H.
  destruct (is_hello_command hello_patterns (Some user_input)),
           (list_contains (keys responses) _); try reflexivity.
  - discriminate (proj1 H eq_refl).
  - discriminate (proj2 H eq_refl).
Qed.

End Loop.

(** Every pattern of the two scripts is in the modelled fragment of
    [re]: [re_match] gives each of them its meaning. *)
Lemma hello_patterns_supported :
  forallb supported Hello.hello_patterns = true
  /\ forallb supported HelloSecond.hello_patterns = true.
Proof. split; vm_compute; reflexivity. Qed.

Lemma hello_patterns_not_empty :
  any_pattern_matches Hello.hello_patterns [] = false.
Proof. vm_compute. reflexivity. Qed.

Lemma hello_second_patterns_not_empty :
  any_pattern_matches HelloSecond.hello_patterns [] = false.
Proof. vm_compute. reflexivity. Qed.

Lemma hello_patterns_are_keys :
  patterns_are_keys Hello.hello_patterns Hello.responses = true.
Proof. vm_compute. reflexivity. Qed.

Lemma hello_second_patterns_are_keys :
  patterns_are_keys HelloSecond.hello_patterns HelloSecond.responses = true.
Proof. vm_compute. reflexivity. Qed.

End LoopFacts.

(** * The properties of the specification *)

Import PyFacts ReFacts ScriptFacts LoopFacts.

(** ** The job-status endpoint *)

Lemma args_get_absent (args : App.MultiDict) (key : str) :
  App.has_param args key = false -> App.args_get args key = None.
Proof.
  induction args as [|[k v] args IH]; simpl; [reflexivity|].
  intros H. apply orb_false_iff in H as [-> H]. now apply IH.
Qed.

(** C1.  The answer of [/job] is determined by the [jobname] parameter
    alone: ["normal"] gives body ["0"] and status 200, ["error"] gives
    body ["1"] and status 200, ["timeout"] sleeps 3600 seconds and then
    gives body ["0"] and status 200, and anything else gives body
    ["Invalid jobname"] and status 400. *)
Theorem job_handler_by_jobname (args : App.MultiDict) (jobname : option str) :
  App.args_get args (u "jobname") = jobname ->
  (jobname = Some (u "normal") ->
   App.serve_job args = ([], {| App.body := u "0"; App.status := 200 |}))
  /\ (jobname = Some (u "error") ->
      App.serve_job args = ([], {| App.body := u "1"; App.status := 200 |}))
  /\ (jobname = Some (u "timeout") ->
      App.serve_job args
      = ([3600], {| App.body := u "0"; App.status := 200 |}))
  /\ (jobname <> Some (u "normal") -> jobname <> Some (u "error") ->
      jobname <> Some (u "timeout") ->
      App.serve_job args
      = ([], {| App.body := u "Invalid jobname"; App.status := 400 |})).
Proof.
  intros H. unfold App.serve_job, App.job_handler. rewrite H.
  split; [intros ->; reflexivity|].
  split; [intros ->; reflexivity|].
  split; [intros ->; reflexivity|].
  intros H1 H2 H3.
  assert (Hne : forall l, jobname <> Some l -> App.eq_literal jobname l = false).
  { intros l Hl. destruct jobname as [j|]; [|reflexivity]. simpl.
    apply not_true_is_false. rewrite str_eqb_eq. congruence. }
  now rewrite (Hne _ H1), (Hne _ H2), (Hne _ H3).
Qed.

Lemma job_handler_by_jobname_witness :
  App.args_get [(u "verbose", u "1"); (u "jobname", u "timeout")] (u "jobname")
  = Some (u "timeout")
  /\ App.serve_job [(u "verbose", u "1"); (u "jobname", u "timeout")]
     = ([3600], {| App.body := u "0"; App.status := 200 |})
  /\ App.serve_job [(u "jobname", u "bogus")]
     = ([], {| App.body := u "Invalid jobname"; App.status := 400 |}).
Proof.
  split; [reflexivity|]. split.
  - apply (job_handler_by_jobname
             [(u "verbose", u "1"); (u "jobname", u "timeout")]
             (Some (u "timeout")));
      reflexivity.
  - apply (job_handler_by_jobname [(u "jobname", u "bogus")]
                                  (Some (u "bogus")));
      [reflexivity | discriminate ..].
Defined.

(** C10.  When the query string has no [jobname] parameter at all, the
    parameter is read as [None], which equals none of the job names: the
    answer is body ["Invalid jobname"] and status 400, without delay. *)
Theorem job_handler_without_jobname (args : App.MultiDict) :
  App.has_param args (u "jobname") = false ->
  App.args_get args (u "jobname") = None
  /\ App.serve_job args
     = ([], {| App.body := u "Invalid jobname"; App.status := 400 |}).
Proof.
  intros H. apply args_get_absent in H. split; [exact H|].
  unfold App.serve_job, App.job_handler. now rewrite H.
Qed.

Lemma job_handler_without_jobname_witness :
  App.has_param [(u "job", u "normal")] (u "jobname") = false
  /\ App.serve_job [(u "job", u "normal")]
     = ([], {| App.body := u "Invalid jobname"; App.status := 400 |}).
Proof.
  split.
  - reflexivity.
  - apply (job_handler_without_jobname [(u "job", u "normal")]).
    reflexivity.
Defined.

(** ** Normalisation *)

(** C9.  Normalisation is idempotent: normalising the result of
    [normalize_input] returns it unchanged, whatever the input, absent
    or not; and a string that [strip] and [lower] leave alone is
    returned unchanged. *)
Theorem normalize_input_twice :
  (forall user_input : option str,
      normalize_input (Some (normalize_input user_input))
      = normalize_input user_input)
  /\ (forall s : str, strip s = s -> lower s = s ->
                      normalize_input (Some s) = s).
Proof.
  split.
  - exact normalize_input_idempotent.
  - intros s Hs Hl. unfold normalize_input. now rewrite Hs.
Qed.

Lemma normalize_input_twice_witness :
  normalize_input (Some (normalize_input (Some (u "  Good MORNING  "))))
  = normalize_input (Some (u "  Good MORNING  "))
  /\ normalize_input (Some (u "good morning")) = u "good morning".
Proof.
  split.
  - exact (proj1 normalize_input_twice (Some (u "  Good MORNING  "))).
  - exact (proj2 normalize_input_twice (u "good morning") eq_refl eq_refl).
Defined.

(** ** Blank input *)

(** C8.  An empty line, or one made of white space only, is not an exit
    keyword, not a help keyword and not a greeting in either script; the
    loop answers it with the prompt to retry and goes on with the next
    line.  Every function involved is total: nothing is raised. *)
Theorem blank_input_retries (s : str) :
  forallb isspace s = true ->
  is_exit_command (Some s) = false
  /\ is_help_command (Some s) = false
  /\ Hello.is_hello_command (Some s) = false
  /\ HelloSecond.is_hello_command (Some s) = false
  /\ (forall rest,
         Hello.main_loop (Line s :: rest)
         = input_prompt ++ retry_prompt ++ Hello.main_loop rest)
  /\ (forall rest,
         HelloSecond.main_loop (Line s :: rest)
         = input_prompt ++ retry_prompt ++ HelloSecond.main_loop rest).
Proof.
  intros H.
  pose proof (normalize_input_spaces s H) as Hn.
  pose proof (strip_spaces s H) as Hs.
  split; [unfold is_exit_command; rewrite Hn; reflexivity|].
  split; [unfold is_help_command; rewrite Hn; reflexivity|].
  split.
  { unfold Hello.is_hello_command, is_hello_command. rewrite Hn.
    exact hello_patterns_not_empty. }
  split.
  { unfold HelloSecond.is_hello_command, is_hello_command. rewrite Hn.
    exact hello_second_patterns_not_empty. }
  split; intros rest.
  - unfold Hello.main_loop. cbn [main_loop get_user_input].
    unfold main_loop_body. rewrite Hs. reflexivity.
  - unfold HelloSecond.main_loop. cbn [main_loop get_user_input].
    unfold main_loop_body. rewrite Hs. reflexivity.
Qed.

Lemma blank_input_retries_witness :
  forallb isspace [0x20; 0x09; 0x3000] = true
  /\ HelloSecond.is_hello_command (Some [0x20; 0x09; 0x3000]) = false
  /\ HelloSecond.main_loop [Line [0x20; 0x09; 0x3000]]
     = input_prompt ++ retry_prompt ++ HelloSecond.main_loop [].
Proof.
  split; [vm_compute; reflexivity|].
  destruct (blank_input_retries [0x20; 0x09; 0x3000] eq_refl)
    as (_ & _ & _ & H & _ & L).
  split; [exact H | exact (L [])].
Defined.

(** ** Keywords *)

Lemma exit_commands_plain :
  forallb (fun k => plain_phrase k && negb (str_eqb k [])) exit_commands = true.
Proof. vm_compute. reflexivity. Qed.

Lemma help_commands_plain :
  forallb (fun k => plain_phrase k && negb (str_eqb k [])
                    && negb (list_contains exit_commands k))
          help_commands = true.
Proof. vm_compute. reflexivity. Qed.

(** C6.  An exit keyword, in any letter case and between any white
    space, is recognised by [is_exit_command], and the loop of either
    script prints the farewell and stops: the lines that follow are not
    read. *)
Theorem exit_keyword_terminates (k s : str) :
  In k exit_commands -> variant_of k s ->
  is_exit_command (Some s) = true
  /\ (forall rest, Hello.main_loop (Line s :: rest) = input_prompt ++ farewell)
  /\ (forall rest,
         HelloSecond.main_loop (Line s :: rest) = input_prompt ++ farewell).
Proof.
  intros Hk Hv.
  pose proof exit_commands_plain as Hp. rewrite forallb_forall in Hp.
  specialize (Hp k Hk). apply andb_prop in Hp as [Hp Hne].
  assert (Hne' : k <> []).
  { intros ->. discriminate. }
  assert (He : is_exit_command (Some s) = true).
  { unfold is_exit_command. rewrite (normalize_input_variant k s Hp Hv).
    now apply list_contains_In. }
  pose proof (variant_not_blank k s Hp Hne' Hv) as Hb.
  split; [exact He|].
  split; intros rest;
    [unfold Hello.main_loop | unfold HelloSecond.main_loop];
    cbn [main_loop get_user_input]; unfold main_loop_body;
    destruct (strip s); [contradiction | | contradiction | ];
    now rewrite He.
Qed.

Lemma exit_keyword_terminates_witness :
  In (u "bye") exit_commands
  /\ variant_of (u "bye") (u "  BYE ")
  /\ is_exit_command (Some (u "  BYE ")) = true
  /\ Hello.main_loop [Line (u "  BYE "); Line (u "hello")]
     = input_prompt ++ farewell.
Proof.
  assert (Hin : In (u "bye") exit_commands).
  { right. right. right. left. reflexivity. }
  assert (Hv : variant_of (u "bye") (u "  BYE ")).
  { exists (u "  "), (u "BYE"), (u " ").
    repeat split; repeat constructor; right; reflexivity. }
  destruct (exit_keyword_terminates (u "bye") (u "  BYE ") Hin Hv)
    as (He & Hl & _).
  split; [exact Hin|]. split; [exact Hv|].
  split; [exact He | exact (Hl [Line (u "hello")])].
Defined.

(** C7.  [is_help_command] accepts exactly the lines whose normal form
    is one of [help], [?], [commands], [info] and [usage]; on such a
    line, ["help"] and ["?"] among them, the loop of either script prints
    the help listing and goes on. *)
Theorem help_keyword_shows_help :
  (forall s, is_help_command (Some s) = true
             <-> In (normalize_input (Some s))
                    [u "help"; u "?"; u "commands"; u "info"; u "usage"])
  /\ is_help_command (Some (u "help")) = true
  /\ is_help_command (Some (u "?")) = true
  /\ (forall s rest,
         is_help_command (Some s) = true ->
         Hello.main_loop (Line s :: rest)
         = input_prompt ++ Hello.show_help ++ Hello.main_loop rest)
  /\ (forall s rest,
         is_help_command (Some s) = true ->
         HelloSecond.main_loop (Line s :: rest)
         = input_prompt ++ HelloSecond.show_help
           ++ HelloSecond.main_loop rest).
Proof.
  assert (Hbody : forall s,
             is_help_command (Some s) = true ->
             strip s <> [] /\ is_exit_command (Some s) = false).
  { intros s Hs. unfold is_help_command, is_exit_command in *.
    apply list_contains_In in Hs.
    pose proof help_commands_plain as Hp. rewrite forallb_forall in Hp.
    specialize (Hp _ Hs). apply andb_prop in Hp as [Hp Hex].
    apply andb_prop in Hp as [_ Hne]. apply negb_true_iff in Hex, Hne.
    split; [|exact Hex].
    intros E. unfold normalize_input in Hne. rewrite E in Hne. discriminate. }
  split; [intros s; apply list_contains_In|].
  split; [reflexivity|]. split; [reflexivity|].
  split; intros s rest Hs; destruct (Hbody s Hs) as [Hb He];
    [unfold Hello.main_loop | unfold HelloSecond.main_loop];
    cbn [main_loop get_user_input]; unfold main_loop_body;
    destruct (strip s); try contradiction;
    now rewrite He, Hs.
Qed.

Lemma help_keyword_shows_help_witness :
  is_help_command (Some (u " Help ")) = true
  /\ Hello.main_loop [Line (u " Help ")]
     = input_prompt ++ Hello.show_help ++ Hello.main_loop [].
Proof.
  split; [reflexivity|].
  destruct help_keyword_shows_help as (_ & _ & _ & H & _).
  exact (H (u " Help ") [] eq_refl).
Defined.

(** ** Greetings *)

Lemma variant_greeted (hello_patterns : list str) (responses : dict)
      (show_help : str) (k v s : str) :
  greeted_keys hello_patterns responses = true ->
  In (k, v) responses -> variant_of k s ->
  is_hello_command hello_patterns (Some s) = true
  /\ show_greeting responses (Some s) = greeting v
  /\ main_loop_body hello_patterns responses show_help s
     = (greeting v, Continue).
Proof.
  intros Hg Hin Hv. unfold greeted_keys in Hg. rewrite forallb_forall in Hg.
  specialize (Hg _ Hin). cbn [fst snd] in Hg.
  repeat match type of Hg with
         | (_ && _ = true) => let H := fresh "Hc" in apply andb_prop in Hg as [Hg H]
         end.
  apply negb_true_iff in Hc, Hc0. apply str_eqb_eq in Hc1.
  assert (Hne : k <> []) by (intros ->; discriminate).
  pose proof (normalize_input_variant k s Hg Hv) as Hn.
  assert (Hh : is_hello_command hello_patterns (Some s) = true)
    by (unfold is_hello_command; now rewrite Hn).
  assert (Hs : show_greeting responses (Some s) = greeting v)
    by (unfold show_greeting, greeting; now rewrite Hn, Hc1).
  split; [exact Hh|]. split; [exact Hs|].
  unfold main_loop_body.
  pose proof (variant_not_blank k s Hg Hne Hv) as Hb.
  destruct (strip s); [contradiction|].
  unfold is_exit_command, is_help_command. rewrite Hn, Hc0, Hc, Hh, Hs.
  reflexivity.
Qed.

Lemma hello_greeted_keys :
  greeted_keys Hello.hello_patterns Hello.responses = true.
Proof. vm_compute. reflexivity. Qed.

Lemma hello_second_greeted_keys :
  greeted_keys HelloSecond.hello_patterns HelloSecond.responses = true.
Proof. vm_compute. reflexivity. Qed.

(** C3.  For every key of the dictionary of responses, in
    [hello_second.py] and in [hello.py] alike, a variant of the key in
    another letter case or with white space around it is a greeting for
    [is_hello_command], [show_greeting] prints the response stored under
    the key, and this is what the loop does with the line. *)
Theorem catalog_phrases_greeted (k v s : str) :
  variant_of k s ->
  (In (k, v) HelloSecond.responses ->
   HelloSecond.is_hello_command (Some s) = true
   /\ HelloSecond.show_greeting (Some s) = greeting v
   /\ HelloSecond.main_loop_body s = (greeting v, Continue))
  /\ (In (k, v) Hello.responses ->
      Hello.is_hello_command (Some s) = true
      /\ Hello.show_greeting (Some s) = greeting v
      /\ Hello.main_loop_body s = (greeting v, Continue)).
Proof.
  intros Hv. split; intros Hin.
  - exact (variant_greeted HelloSecond.hello_patterns HelloSecond.responses
             HelloSecond.show_help k v s
             hello_second_greeted_keys Hin Hv).
  - exact (variant_greeted Hello.hello_patterns Hello.responses
             Hello.show_help k v s
             hello_greeted_keys Hin Hv).
Qed.

Lemma catalog_phrases_greeted_witness :
  variant_of (u "what's up") ([0x09] ++ u "What's UP  ")
  /\ In (u "what's up", u "Not much, you? What's up with you?")
        HelloSecond.responses
  /\ HelloSecond.is_hello_command (Some ([0x09] ++ u "What's UP  ")) = true
  /\ HelloSecond.show_greeting (Some ([0x09] ++ u "What's UP  "))
     = greeting (u "Not much, you? What's up with you?").
Proof.
  assert (Hv : variant_of (u "what's up") ([0x09] ++ u "What's UP  ")).
  { exists [0x09], (u "What's UP"), (u "  ").
    split; [reflexivity|]. split; [reflexivity|]. split; [reflexivity|].
    repeat (constructor; [(left; reflexivity) || (right; reflexivity)|]).
    constructor. }
  assert (Hin : In (u "what's up", u "Not much, you? What's up with you?")
                   HelloSecond.responses).
  { do 9 right. left. reflexivity. }
  destruct (catalog_phrases_greeted
              (u "what's up") (u "Not much, you? What's up with you?")
              ([0x09] ++ u "What's UP  ") Hv) as [H _].
  destruct (H Hin) as (H1 & H2 & _).
  split; [exact Hv|]. split; [exact Hin|]. split; [exact H1 | exact H2].
Defined.

(** ** The patterns and the catalog *)

(** With [re.IGNORECASE], the letter [i] of a pattern matches U+0131
    (dotless i), which [str.lower()] leaves as it is: the line ["hı"] is
    a greeting for [hello.py] and is not a phrase of its catalog.  And
    one pattern of [hello_second.py] is not a fixed phrase: it has a
    quantifier. *)
Lemma dotless_i_is_greeted :
  Hello.is_hello_command (Some (u "hı")) = true
  /\ ~ In (normalize_input (Some (u "hı"))) (keys Hello.responses)
  /\ In (u "^what\'?s up$") HelloSecond.hello_patterns
  /\ sre_parse (u "^what\'?s up$")
     = Some ([AT AT_BEGINNING] ++ map LITERAL (u "what")
             ++ [MAX_REPEAT_0_1 (ch "'")] ++ map LITERAL (u "s up")
             ++ [AT AT_END]).
Proof.
  split; [vm_compute; reflexivity|]. split.
  - intros H. apply list_contains_In in H. vm_compute in H. discriminate.
  - split; [|vm_compute; reflexivity].
    apply list_contains_In. vm_compute. reflexivity.
Qed.

(** C2, amended.  On every line whose normal form has neither U+0131 nor
    U+017F, [is_hello_command] holds exactly when the normal form is a key
    of the dictionary of responses, in both scripts.  The patterns of
    [hello.py] are all fixed anchored phrases; those of [hello_second.py]
    are too, but for [^what\'?s up$], whose apostrophe is optional and
    which stands for two keys. *)
Theorem is_hello_command_is_catalog_membership :
  (forall s : str,
      no_extra_case (normalize_input (Some s)) = true ->
      (Hello.is_hello_command (Some s) = true
       <-> In (normalize_input (Some s)) (keys Hello.responses))
      /\ (HelloSecond.is_hello_command (Some s) = true
          <-> In (normalize_input (Some s)) (keys HelloSecond.responses)))
  /\ forallb is_fixed_phrase Hello.hello_patterns = true
  /\ filter (fun p => negb (is_fixed_phrase p)) HelloSecond.hello_patterns
     = [u "^what\'?s up$"]
  /\ pattern_lang (u "^what\'?s up$") = Some [u "what's up"; u "whats up"].
Proof.
  split; [|repeat split; vm_compute; reflexivity].
  intros s Hx. split.
  - exact (is_hello_command_keys Hello.hello_patterns Hello.responses
             hello_patterns_are_keys (Some s) Hx).
  - exact (is_hello_command_keys HelloSecond.hello_patterns
             HelloSecond.responses hello_second_patterns_are_keys (Some s) Hx).
Qed.

Lemma is_hello_command_is_catalog_membership_witness :
  no_extra_case (normalize_input (Some (u " Whats Up"))) = true
  /\ (HelloSecond.is_hello_command (Some (u " Whats Up")) = true
      <-> In (normalize_input (Some (u " Whats Up")))
             (keys HelloSecond.responses)).
Proof.
  split; [vm_compute; reflexivity|].
  exact (proj2 (proj1 is_hello_command_is_catalog_membership
                      (u " Whats Up") eq_refl)).
Defined.

(** The letter [s] of a pattern matches U+017F (long s) in the same way:
    [hello_second.py] takes ["ſup"] for a greeting, finds no response
    under it and prints the fallback. *)
Lemma long_s_gets_fallback :
  HelloSecond.is_hello_command (Some (u "ſup")) = true
  /\ ~ In (normalize_input (Some (u "ſup"))) (keys HelloSecond.responses)
  /\ HelloSecond.show_greeting (Some (u "ſup")) = greeting fallback_response.
Proof.
  split; [vm_compute; reflexivity|]. split; [|vm_compute; reflexivity].
  intros H. apply list_contains_In in H. vm_compute in H. discriminate.
Qed.

Lemma matched_has_response (hello_patterns : list str) (responses : dict)
      (s : str) :
  patterns_are_keys hello_patterns responses = true ->
  greeted_keys hello_patterns responses = true ->
  normalized_keys responses = true ->
  no_extra_case (normalize_input (Some s)) = true ->
  is_hello_command hello_patterns (Some s) = true ->
  exists v, In (normalize_input (Some s), v) responses
            /\ show_greeting responses (Some s) = greeting v
            /\ v <> fallback_response.
Proof.
  intros Hkeys Hg Hnk Hx Hm.
  apply (is_hello_command_keys hello_patterns responses Hkeys (Some s) Hx)
    in Hm.
  unfold keys in Hm. apply in_map_iff in Hm as ([k v] & Hk & Hin).
  cbn [fst] in Hk. subst k. exists v. split; [exact Hin|].
  unfold greeted_keys in Hg. unfold normalized_keys in Hnk.
  rewrite forallb_forall in Hg, Hnk.
  specialize (Hg _ Hin). specialize (Hnk _ Hin). cbn [fst snd] in Hg, Hnk.
  apply andb_prop in Hnk as [_ Hv]. apply negb_true_iff in Hv.
  apply andb_prop in Hg as [Hg _]. apply andb_prop in Hg as [Hg _].
  apply andb_prop in Hg as [_ Hd]. apply str_eqb_eq in Hd.
  split.
  - unfold show_greeting, greeting. now rewrite Hd.
  - intros ->. rewrite str_eqb_refl in Hv. discriminate.
Qed.

Lemma hello_normalized_keys : normalized_keys Hello.responses = true.
Proof. vm_compute. reflexivity. Qed.

Lemma hello_second_normalized_keys :
  normalized_keys HelloSecond.responses = true.
Proof. vm_compute. reflexivity. Qed.

Lemma keys_in_normal_form (responses : dict) (k : str) :
  normalized_keys responses = true -> In k (keys responses) ->
  normalize_input (Some k) = k.
Proof.
  intros H Hk. unfold keys in Hk. apply in_map_iff in Hk as (kv & <- & Hin).
  unfold normalized_keys in H. rewrite forallb_forall in H.
  specialize (H _ Hin). apply andb_prop in H as [H _].
  now apply str_eqb_eq in H.
Qed.

(** C4, amended.  The keys of the dictionary of responses are in normal
    form.  Whenever [is_hello_command] accepts a line whose normal form
    has neither U+0131 nor U+017F, the normal form is a key of the
    dictionary and [show_greeting] prints the response stored under it,
    which is not the fallback.  This holds in [hello_second.py] and in
    [hello.py]. *)
Theorem greeting_match_has_response :
  (forall k, In k (keys HelloSecond.responses) \/ In k (keys Hello.responses) ->
             normalize_input (Some k) = k)
  /\ (forall s,
         no_extra_case (normalize_input (Some s)) = true ->
         HelloSecond.is_hello_command (Some s) = true ->
         exists v, In (normalize_input (Some s), v) HelloSecond.responses
                   /\ HelloSecond.show_greeting (Some s) = greeting v
                   /\ v <> fallback_response)
  /\ (forall s,
         no_extra_case (normalize_input (Some s)) = true ->
         Hello.is_hello_command (Some s) = true ->
         exists v, In (normalize_input (Some s), v) Hello.responses
                   /\ Hello.show_greeting (Some s) = greeting v
                   /\ v <> fallback_response).
Proof.
  split; [|split].
  - intros k [Hk|Hk].
    + exact (keys_in_normal_form _ k hello_second_normalized_keys Hk).
    + exact (keys_in_normal_form _ k hello_normalized_keys Hk).
  - intros s.
    exact (matched_has_response HelloSecond.hello_patterns
             HelloSecond.responses s hello_second_patterns_are_keys
             hello_second_greeted_keys hello_second_normalized_keys).
  - intros s.
    exact (matched_has_response Hello.hello_patterns Hello.responses s
             hello_patterns_are_keys hello_greeted_keys
             hello_normalized_keys).
Qed.

Lemma greeting_match_has_response_witness :
  no_extra_case (normalize_input (Some (u "ALOHA "))) = true
  /\ HelloSecond.is_hello_command (Some (u "ALOHA ")) = true
  /\ exists v, In (normalize_input (Some (u "ALOHA ")), v) HelloSecond.responses
               /\ HelloSecond.show_greeting (Some (u "ALOHA ")) = greeting v
               /\ v <> fallback_response.
Proof.
  split; [vm_compute; reflexivity|]. split; [vm_compute; reflexivity|].
  exact (proj1 (proj2 greeting_match_has_response) (u "ALOHA ")
               eq_refl eq_refl).
Defined.

(** ** The order of the checks *)

(** The line ["cıao"] is in none of the three sets, so that the
    classification of the specification calls it unrecognized, and the
    loop of [hello.py] greets it. *)
Lemma dotless_i_classified_as_greeting :
  spec_classify (keys Hello.responses) (normalize_input (Some (u "cıao")))
  = Unrecognized
  /\ Hello.main_loop_body (u "cıao") = (greeting fallback_response, Continue)
  /\ Hello.main_loop_body (u "cıao")
     <> spec_respond Hello.responses Hello.show_help
          (spec_classify (keys Hello.responses)
                         (normalize_input (Some (u "cıao"))))
          (u "cıao").
Proof.
  split; [vm_compute; reflexivity|]. split; [vm_compute; reflexivity|].
  vm_compute. discriminate.
Qed.

(** C5, amended.  The loop of either script answers a line by making
    its checks in a fixed order: [is_exit_command] first, then
    [is_help_command], then [is_hello_command], and the line is
    unrecognized when all three fail, so that a line accepted by an
    earlier check never reaches a later one.  The first two checks are
    membership in the exit and help keywords; the third is membership in
    the phrase catalog on every line whose normal form has neither U+0131
    nor U+017F. *)
Theorem loop_checks_in_order :
  (forall s,
      Hello.main_loop_body s
      = spec_respond Hello.responses Hello.show_help
                     (loop_classify Hello.hello_patterns s) s
      /\ HelloSecond.main_loop_body s
         = spec_respond HelloSecond.responses HelloSecond.show_help
                        (loop_classify HelloSecond.hello_patterns s) s)
  /\ (forall s,
         no_extra_case (normalize_input (Some s)) = true ->
         loop_classify Hello.hello_patterns s
         = spec_classify (keys Hello.responses) (normalize_input (Some s))
         /\ loop_classify HelloSecond.hello_patterns s
            = spec_classify (keys HelloSecond.responses)
                            (normalize_input (Some s))).
Proof.
  split.
  - intros s. split.
    + exact (main_loop_body_classify Hello.hello_patterns Hello.responses
               Hello.show_help hello_patterns_not_empty s).
    + exact (main_loop_body_classify HelloSecond.hello_patterns
               HelloSecond.responses HelloSecond.show_help
               hello_second_patterns_not_empty s).
  - intros s Hx. split.
    + exact (loop_classify_spec Hello.hello_patterns Hello.responses
               hello_patterns_are_keys s Hx).
    + exact (loop_classify_spec HelloSecond.hello_patterns
               HelloSecond.responses hello_second_patterns_are_keys s Hx).
Qed.

Lemma loop_checks_in_order_witness :
  no_extra_case (normalize_input (Some (u "Bye"))) = true
  /\ loop_classify Hello.hello_patterns (u "Bye")
     = spec_classify (keys Hello.responses) (normalize_input (Some (u "Bye")))
  /\ Hello.main_loop_body (u "Bye")
     = spec_respond Hello.responses Hello.show_help Terminate (u "Bye").
Proof.
  split; [vm_compute; reflexivity|].
  destruct loop_checks_in_order as [Hbody Hclass].
  split.
  - exact (proj1 (Hclass (u "Bye") eq_refl)).
  - exact (proj1 (Hbody (u "Bye"))).
Defined.

(** * Further properties of the scripts *)

(** ** Normalisation *)

Lemma lstrip_app (s t : str) :
  lstrip (s ++ t) = match lstrip s with [] => lstrip t | _ :: _ => lstrip s ++ t end.
Proof.
  induction s as [|c s IH]; simpl; [now destruct (lstrip t)|].
  destruct (isspace c); [exact IH | reflexivity].
Qed.

Lemma strip_app_spaces (pre s post : str) :
  forallb isspace pre = true -> forallb isspace post = true ->
  strip (pre ++ s ++ post) = strip s.
Proof.
  intros Hpre Hpost. unfold strip.
  rewrite lstrip_app_spaces by exact Hpre. rewrite lstrip_app.
  destruct (lstrip s) as [|c t] eqn:E.
  - now rewrite lstrip_spaces by exact Hpost.
  - unfold rstrip. rewrite rev_app_distr.
    now rewrite lstrip_app_spaces by (apply forallb_rev; exact Hpost).
Qed.

(** X1.  White space around a line is ignored by everything that
    normalises it: the normal form, the three predicates and the
    greeting are those of the line without it. *)
Theorem padding_is_ignored (pre s post : str) :
  forallb isspace pre = true -> forallb isspace post = true ->
  normalize_input (Some (pre ++ s ++ post)) = normalize_input (Some s)
  /\ is_exit_command (Some (pre ++ s ++ post)) = is_exit_command (Some s)
  /\ is_help_command (Some (pre ++ s ++ post)) = is_help_command (Some s)
  /\ (forall hello_patterns,
         is_hello_command hello_patterns (Some (pre ++ s ++ post))
         = is_hello_command hello_patterns (Some s))
  /\ (forall responses,
         show_greeting responses (Some (pre ++ s ++ post))
         = show_greeting responses (Some s)).
Proof.
  intros Hpre Hpost.
  assert (E : normalize_input (Some (pre ++ s ++ post))
              = normalize_input (Some s)).
  { unfold normalize_input. now rewrite strip_app_spaces. }
  unfold is_exit_command, is_help_command, is_hello_command, show_greeting.
  rewrite E. repeat split.
Qed.

Lemma padding_is_ignored_witness :
  forallb isspace [0x09; 0x20] = true /\ forallb isspace [0xA0; 0x0A] = true
  /\ normalize_input (Some ([0x09; 0x20] ++ u "Good  Day" ++ [0xA0; 0x0A]))
     = normalize_input (Some (u "Good  Day")).
Proof.
  split; [reflexivity|]. split; [reflexivity|].
  exact (proj1 (padding_is_ignored [0x09; 0x20] (u "Good  Day") [0xA0; 0x0A]
                                   eq_refl eq_refl)).
Defined.

Lemma forallb_lstrip (f : char -> bool) (s : str) :
  forallb f s = true -> forallb f (lstrip s) = true.
Proof.
  induction s as [|c s IH]; simpl; [reflexivity|].
  intros H. destruct (isspace c); [|exact H].
  apply andb_prop in H as [_ H]. now apply IH.
Qed.

Lemma forallb_strip (f : char -> bool) (s : str) :
  forallb f s = true -> forallb f (strip s) = true.
Proof.
  intros H. unfold strip, rstrip.
  now apply forallb_rev, forallb_lstrip, forallb_rev, forallb_lstrip.
Qed.

Lemma do_lower_ascii (s : str) :
  is_ascii s = true -> forall before, do_lower before s = map ascii_tolower s.
Proof.
  induction s as [|c s IH]; intros H before; [reflexivity|].
  simpl in H. apply andb_prop in H as [Hc Hs]. apply N.ltb_lt in Hc.
  cbn [do_lower map]. rewrite (IH Hs).
  unfold lower_ucs4, tolower_full.
  replace (c =? 0x3A3) with false by (symmetry; apply N.eqb_neq; lia).
  replace (c =? 0x130) with false by (symmetry; apply N.eqb_neq; lia).
  now rewrite (unicode_tolower_ascii c Hc).
Qed.

(** X2.  On an ASCII line, normalisation is [strip] followed by the
    ASCII lowercase of each character: nothing else changes, white
    space inside the line included. *)
Theorem normalize_input_ascii (s : str) :
  is_ascii s = true ->
  normalize_input (Some s) = map ascii_tolower (strip s).
Proof.
  intros H. unfold normalize_input, lower.
  apply do_lower_ascii. unfold is_ascii. now apply forallb_strip.
Qed.

Lemma normalize_input_ascii_witness :
  is_ascii (u " Hello  THERE ") = true
  /\ normalize_input (Some (u " Hello  THERE ")) = u "hello  there".
Proof.
  split; [reflexivity|].
  exact (normalize_input_ascii (u " Hello  THERE ") eq_refl).
Defined.

Lemma lstrip_map (f : char -> char) (s : str) :
  (forall c, isspace (f c) = isspace c) ->
  lstrip (map f s) = map f (lstrip s).
Proof.
  intros Hf. induction s as [|c s IH]; simpl; [reflexivity|].
  rewrite Hf. destruct (isspace c); [exact IH | reflexivity].
Qed.

Lemma strip_map (f : char -> char) (s : str) :
  (forall c, isspace (f c) = isspace c) ->
  strip (map f s) = map f (strip s).
Proof.
  intros Hf. unfold strip, rstrip.
  now rewrite lstrip_map, <- map_rev, lstrip_map, map_rev.
Qed.

Lemma isspace_ascii_tolower (c : char) : isspace (ascii_tolower c) = isspace c.
Proof.
  unfold ascii_tolower. destruct (is_ascii_upper c) eqn:E; [|reflexivity].
  assert (Hc : c < 0x80).
  { unfold is_ascii_upper in E. apply andb_prop in E as [_ Hhi].
    apply N.leb_le in Hhi. lia. }
  pose proof (unicode_tolower_ascii c Hc) as H. rewrite E in H.
  rewrite <- H. apply isspace_unicode_tolower.
Qed.

(** X3.  Classification does not depend on the case of ASCII letters:
    two ASCII lines that are equal once their capitals are lowered have
    the same normal form, hence the same answers from the three
    predicates and the same place in the order of checks. *)
Theorem ascii_case_is_ignored (s t : str) :
  is_ascii s = true -> is_ascii t = true ->
  map ascii_tolower s = map ascii_tolower t ->
  normalize_input (Some s) = normalize_input (Some t)
  /\ is_exit_command (Some s) = is_exit_command (Some t)
  /\ is_help_command (Some s) = is_help_command (Some t)
  /\ (forall hello_patterns,
         is_hello_command hello_patterns (Some s)
         = is_hello_command hello_patterns (Some t))
  /\ (forall hello_patterns,
         loop_classify hello_patterns s = loop_classify hello_patterns t).
Proof.
  intros Hs Ht E.
  assert (En : normalize_input (Some s) = normalize_input (Some t)).
  { rewrite (normalize_input_ascii s Hs), (normalize_input_ascii t Ht).
    rewrite <- !(strip_map ascii_tolower) by exact isspace_ascii_tolower.
    now rewrite E. }
  unfold loop_classify, is_exit_command, is_help_command, is_hello_command.
  rewrite En. repeat split.
Qed.

Lemma ascii_case_is_ignored_witness :
  is_ascii (u "gOOD eVENING") = true /\ is_ascii (u "Good Evening") = true
  /\ map ascii_tolower (u "gOOD eVENING") = map ascii_tolower (u "Good Evening")
  /\ normalize_input (Some (u "gOOD eVENING"))
     = normalize_input (Some (u "Good Evening")).
Proof.
  split; [reflexivity|]. split; [reflexivity|]. split; [reflexivity|].
  exact (proj1 (ascii_case_is_ignored (u "gOOD eVENING") (u "Good Evening")
                                      eq_refl eq_refl eq_refl)).
Defined.

Lemma lowered_not_ascii_upper (c : char) :
  lowered c -> is_ascii_upper c = false.
Proof.
  intros H. destruct (is_ascii_upper c) eqn:E; [|reflexivity].
  assert (Hc : c < 0x80).
  { unfold is_ascii_upper in E. apply andb_prop in E as [_ Hhi].
    apply N.leb_le in Hhi. lia. }
  pose proof (unicode_tolower_ascii c Hc) as Hl. rewrite E in Hl.
  unfold lowered in H. lia.
Qed.

(** X4.  Whatever the input, absent or not, the normal form neither
    starts nor ends with white space, none of its characters has a
    lowercase form other than itself, and it has no ASCII capital. *)
Theorem normalize_input_is_trimmed_and_lowered (user_input : option str) :
  hdspace (normalize_input user_input) = false
  /\ lastspace (normalize_input user_input) = false
  /\ Forall (fun c => unicode_tolower c = c /\ is_ascii_upper c = false)
            (normalize_input user_input).
Proof.
  destruct (normalize_input_normal user_input) as [Hl Hs].
  split; [|split; [exact Hs|]].
  - destruct user_input as [s|]; [|reflexivity].
    unfold normalize_input, lower. rewrite hdspace_do_lower.
    apply strip_trimmed.
  - eapply Forall_impl; [|exact Hl].
    intros c Hc. split; [exact Hc | now apply lowered_not_ascii_upper].
Qed.

(** ** The greeting classifier on every line *)

Lemma unicode_tolower_ascii_bound (av : char) :
  av < 0x80 -> unicode_tolower av < 0x80.
Proof.
  intros H. rewrite (unicode_tolower_ascii av H).
  destruct (is_ascii_upper av) eqn:E; [|exact H].
  unfold is_ascii_upper in E. apply andb_prop in E as [_ Hhi].
  apply N.leb_le in Hhi. lia.
Qed.

Lemma fold_extra_eqb (x lo : char) :
  lo < 0x80 ->
  (fold_extra x =? lo)
  = (x =? lo) || ((x =? 0x131) && (lo =? 0x69)) || ((x =? 0x17F) && (lo =? 0x73)).
Proof.
  intros Hlo. unfold fold_extra. change (ch "i") with 0x69.
  change (ch "s") with 0x73.
  destruct (N.eqb_spec x 0x131) as [->|H1];
    [|destruct (N.eqb_spec x 0x17F) as [->|H2]].
  - replace (0x131 =? lo) with false by (symmetry; apply N.eqb_neq; lia).
    rewrite (N.eqb_sym 0x69 lo).
    destruct (lo =? 0x69), (lo =? 0x73); reflexivity.
  - replace (0x17F =? lo) with false by (symmetry; apply N.eqb_neq; lia).
    rewrite (N.eqb_sym 0x73 lo).
    destruct (lo =? 0x69), (lo =? 0x73); reflexivity.
  - cbn [andb]. now rewrite !orb_false_r.
Qed.

(** On a lowered subject character, a literal compiled with
    [re.IGNORECASE] tests equality of its lowercase with the character,
    U+0131 and U+017F being read as [i] and [s]. *)
Lemma compile_literal_matches_fold (av : char) (c : charcode) (x : char) :
  compile_literal true av = Some c -> lowered x ->
  char_matches c x = (fold_extra x =? unicode_tolower av).
Proof.
  unfold compile_literal. cbn [negb].
  destruct (0x80 <=? av) eqn:Hav; [discriminate|].
  apply N.leb_gt in Hav. intros Hc Hx.
  rewrite (fold_extra_eqb x _ (unicode_tolower_ascii_bound av Hav)).
  destruct (is_ascii_letter av) eqn:Hlet; cbn [negb] in Hc.
  - unfold EXTRA_CASES in Hc. change (ch "i") with 0x69 in Hc.
    change (ch "s") with 0x73 in Hc.
    destruct (unicode_tolower av =? 0x69) eqn:Ei;
      [|destruct (unicode_tolower av =? 0x73) eqn:Es];
      injection Hc as <-; cbn [char_matches existsb]; rewrite Hx.
    + apply N.eqb_eq in Ei. rewrite Ei. cbn [N.eqb Pos.eqb].
      now rewrite !orb_false_r, andb_true_r, andb_false_r, orb_false_r.
    + apply N.eqb_eq in Es. rewrite Es. cbn [N.eqb Pos.eqb].
      now rewrite !orb_false_r, andb_true_r, andb_false_r, orb_false_r.
    + now rewrite !andb_false_r, !orb_false_r.
  - injection Hc as <-. cbn [char_matches].
    rewrite (unicode_tolower_ascii av Hav).
    unfold is_ascii_letter in Hlet. apply orb_false_iff in Hlet as [Hup Hlow].
    rewrite Hup.
    destruct (N.eqb_spec av 0x69) as [->|_]; [discriminate|].
    destruct (N.eqb_spec av 0x73) as [->|_]; [discriminate|].
    now rewrite !andb_false_r, !orb_false_r.
Qed.

Lemma sre_match_lang_fold (p : list node) :
  forall code L, sre_compile true p = Some code -> lang p = Some L ->
  forall b n, normal n ->
              (sre_match code b n = true <-> In (map fold_extra n) L).
Proof.
  induction p as [|nd p IH]; intros code L Hc HL b n Hn; [discriminate|].
  cbn [sre_compile] in Hc.
  destruct (sre_compile true p) as [code'|] eqn:Hc'; [|discriminate].
  destruct nd as [[|]|av|av]; cbn [lang] in HL.
  - discriminate.
  - destruct p; [|discriminate]. injection HL as <-.
    injection Hc' as <-. injection Hc as <-. cbn [sre_match].
    rewrite andb_true_r, (at_end_normal n Hn). simpl.
    destruct n; simpl; intuition congruence.
  - destruct (compile_literal true av) as [c|] eqn:Hlit; [|discriminate].
    injection Hc as <-.
    destruct (lang p) as [L'|]; [|discriminate]. injection HL as <-.
    cbn [sre_match]. destruct n as [|x n].
    + split; [discriminate|]. intros H. apply in_map_iff in H.
      destruct H as (? & ? & _). discriminate.
    + assert (Hlow : lowered x) by (destruct Hn as [Hl _]; now inversion Hl).
      rewrite (compile_literal_matches_fold av c x Hlit Hlow).
      cbn [map].
      rewrite andb_true_iff, N.eqb_eq, in_map_cons.
      rewrite (IH code' L' eq_refl eq_refl false n (normal_tail x n Hn)).
      reflexivity.
  - destruct (compile_literal true av) as [c|] eqn:Hlit; [|discriminate].
    injection Hc as <-.
    destruct (lang p) as [L'|]; [|discriminate]. injection HL as <-.
    cbn [sre_match]. rewrite orb_true_iff, in_app_iff.
    rewrite (IH code' L' eq_refl eq_refl b n Hn).
    destruct n as [|x n].
    + split; [intros [H|H]; [discriminate | now right]|].
      intros [H|H]; [|now right]. apply in_map_iff in H.
      destruct H as (? & ? & _). discriminate.
    + assert (Hlow : lowered x) by (destruct Hn as [Hl _]; now inversion Hl).
      rewrite (compile_literal_matches_fold av c x Hlit Hlow).
      cbn [map].
      rewrite andb_true_iff, N.eqb_eq, in_map_cons.
      rewrite (IH code' L' eq_refl eq_refl false n (normal_tail x n Hn)).
      reflexivity.
Qed.

Lemma any_pattern_matches_lang_fold (patterns : list str) :
  forall L n, patterns_lang patterns = Some L -> normal n ->
  (any_pattern_matches patterns n = true <-> In (map fold_extra n) L).
Proof.
  induction patterns as [|p ps IH]; intros L n HL Hn.
  - injection HL as <-. simpl. split; [discriminate | contradiction].
  - cbn [patterns_lang] in HL.
    destruct (pattern_lang p) as [Lp|] eqn:Hp; [|discriminate].
    destruct (patterns_lang ps) as [M|]; [|discriminate].
    injection HL as <-. cbn [any_pattern_matches]. rewrite in_app_iff.
    rewrite <- (IH M n eq_refl Hn).
    assert (Hre : re_match p n IGNORECASE = true <-> In (map fold_extra n) Lp).
    { unfold pattern_lang in Hp. unfold re_match, IGNORECASE.
      destruct (sre_parse p) as [[|[[|]|?|?] body]|]; try discriminate.
      cbn [sre_compile].
      destruct (sre_compile true body) as [code|] eqn:Hc; [|discriminate].
      cbn [sre_match andb].
      exact (sre_match_lang_fold body code Lp Hc Hp true n Hn). }
    rewrite <- Hre.
    destruct (re_match p n IGNORECASE); intuition congruence.
Qed.

Lemma is_hello_command_fold (hello_patterns : list str) (responses : dict)
      (user_input : option str) :
  patterns_are_keys hello_patterns responses = true ->
  (is_hello_command hello_patterns user_input = true
   <-> In (map fold_extra (normalize_input user_input)) (keys responses)).
Proof.
  intros Hk. unfold is_hello_command. unfold patterns_are_keys in Hk.
  destruct (patterns_lang hello_patterns) as [L|] eqn:HL; [|discriminate].
  apply andb_prop in Hk as [H1 H2]. rewrite forallb_forall in H1, H2.
  rewrite (any_pattern_matches_lang_fold hello_patterns L _ HL
             (normalize_input_normal user_input)).
  split; intros H.
  - apply list_contains_In, H1, H.
  - apply list_contains_In, H2, H.
Qed.

(** X5.  On every line, of any characters, [is_hello_command] holds
    exactly when the normal form of the line, with U+0131 read as [i]
    and U+017F read as [s], is a key of the dictionary of responses.
    This holds in both scripts. *)
Theorem is_hello_command_on_every_line (user_input : option str) :
  (Hello.is_hello_command user_input = true
   <-> In (map fold_extra (normalize_input user_input)) (keys Hello.responses))
  /\ (HelloSecond.is_hello_command user_input = true
      <-> In (map fold_extra (normalize_input user_input))
             (keys HelloSecond.responses)).
Proof.
  split.
  - exact (is_hello_command_fold Hello.hello_patterns Hello.responses
             user_input hello_patterns_are_keys).
  - exact (is_hello_command_fold HelloSecond.hello_patterns
             HelloSecond.responses user_input hello_second_patterns_are_keys).
Qed.

Lemma is_hello_command_on_every_line_witness :
  In (map fold_extra (normalize_input (Some (u " Greetıngſ"))))
     (keys Hello.responses)
  /\ Hello.is_hello_command (Some (u " Greetıngſ")) = true.
Proof.
  assert (H : In (map fold_extra (normalize_input (Some (u " Greetıngſ"))))
                 (keys Hello.responses)).
  { apply list_contains_In. vm_compute. reflexivity. }
  split; [exact H|].
  exact (proj2 (proj1 (is_hello_command_on_every_line (Some (u " Greetıngſ"))))
               H).
Defined.

(** ** Responses *)

Lemma dict_lookup_None (d : dict) (key : str) :
  dict_lookup d key = None <-> ~ In key (keys d).
Proof.
  induction d as [|[k v] d IH]; simpl; [tauto|].
  destruct (dict_lookup d key) as [w|].
  - split; [discriminate|]. intros H. exfalso.
    assert (Hd : ~ In key (keys d)) by tauto.
    apply IH in Hd. discriminate.
  - destruct (str_eqb key k) eqn:E.
    + apply str_eqb_eq in E. subst. split; [discriminate | tauto].
    + split; [|reflexivity]. intros _ [H|H].
      * subst. rewrite str_eqb_refl in E. discriminate.
      * now apply (proj1 IH).
Qed.

Lemma dict_lookup_Some (d : dict) (key v : str) :
  dict_lookup d key = Some v -> In (key, v) d.
Proof.
  induction d as [|[k w] d IH]; simpl; [discriminate|].
  destruct (dict_lookup d key) as [w'|].
  - intros [= <-]. right. now apply IH.
  - destruct (str_eqb key k) eqn:E; [|discriminate].
    apply str_eqb_eq in E. subst. intros [= <-]. now left.
Qed.

Lemma greeted_keys_get (hello_patterns : list str) (responses : dict)
      (k v : str) :
  greeted_keys hello_patterns responses = true -> In (k, v) responses ->
  dict_get responses k fallback_response = v
  /\ list_contains exit_commands k = false
  /\ list_contains help_commands k = false.
Proof.
  intros Hg Hin. unfold greeted_keys in Hg. rewrite forallb_forall in Hg.
  specialize (Hg _ Hin). cbn [fst snd] in Hg.
  apply andb_prop in Hg as [Hg Hh]. apply andb_prop in Hg as [Hg He].
  apply andb_prop in Hg as [_ Hd].
  apply negb_true_iff in Hh, He. apply str_eqb_eq in Hd. now repeat split.
Qed.

Lemma show_greeting_missing (responses : dict) (user_input : option str) :
  ~ In (normalize_input user_input) (keys responses) ->
  show_greeting responses user_input = greeting fallback_response.
Proof.
  intros H. apply dict_lookup_None in H.
  unfold show_greeting, greeting, dict_get. now rewrite H.
Qed.

Lemma show_greeting_item (hello_patterns : list str) (responses : dict)
      (user_input : option str) (v : str) :
  greeted_keys hello_patterns responses = true ->
  In (normalize_input user_input, v) responses ->
  show_greeting responses user_input = greeting v.
Proof.
  intros Hg H. destruct (greeted_keys_get _ _ _ _ Hg H) as [E _].
  unfold show_greeting, greeting. now rewrite E.
Qed.

(** X6.  [show_greeting] prints the response stored under the normal
    form of its input when there is one, and the fallback
    ["Hello! Great to see you!"] when the normal form is not a key, absent
    input included.  No key of either script is hidden by a later item of
    the dictionary. *)
Theorem show_greeting_by_key (user_input : option str) :
  (forall responses,
      ~ In (normalize_input user_input) (keys responses) ->
      show_greeting responses user_input = greeting fallback_response)
  /\ (forall v, In (normalize_input user_input, v) Hello.responses ->
                Hello.show_greeting user_input = greeting v)
  /\ (forall v, In (normalize_input user_input, v) HelloSecond.responses ->
                HelloSecond.show_greeting user_input = greeting v).
Proof.
  split; [|split].
  - intros responses. apply show_greeting_missing.
  - intros v. exact (show_greeting_item Hello.hello_patterns Hello.responses
                       user_input v hello_greeted_keys).
  - intros v. exact (show_greeting_item HelloSecond.hello_patterns
                       HelloSecond.responses user_input v
                       hello_second_greeted_keys).
Qed.

Lemma show_greeting_by_key_witness :
  ~ In (normalize_input (Some (u "good night"))) (keys HelloSecond.responses)
  /\ HelloSecond.show_greeting (Some (u "good night"))
     = greeting fallback_response
  /\ In (normalize_input (Some (u " OLA")), u "Olá! Como vai?")
        HelloSecond.responses
  /\ HelloSecond.show_greeting (Some (u " OLA")) = greeting (u "Olá! Como vai?").
Proof.
  assert (H1 : ~ In (normalize_input (Some (u "good night")))
                    (keys HelloSecond.responses)).
  { intros H. apply list_contains_In in H. vm_compute in H. discriminate. }
  assert (H2 : In (normalize_input (Some (u " OLA")), u "Olá! Como vai?")
                  HelloSecond.responses).
  { do 37 right. left. vm_compute. reflexivity. }
  split; [exact H1|]. split.
  - exact (proj1 (show_greeting_by_key (Some (u "good night")))
                 HelloSecond.responses H1).
  - split; [exact H2|].
    exact (proj2 (proj2 (show_greeting_by_key (Some (u " OLA")))) _ H2).
Defined.

Lemma greeting_inj (v w : str) : greeting v = greeting w -> v = w.
Proof.
  unfold greeting, print. intros H.
  apply app_inv_tail in H. apply app_inv_head in H. apply app_inv_head in H.
  now apply app_inv_tail in H.
Qed.

Lemma keywords_are_plain :
  forallb (fun k => str_eqb (map fold_extra k) k)
          (exit_commands ++ help_commands) = true.
Proof. vm_compute. reflexivity. Qed.

Lemma keyword_fold (n : str) :
  list_contains exit_commands n = true \/ list_contains help_commands n = true ->
  map fold_extra n = n.
Proof.
  intros H. pose proof keywords_are_plain as Hp.
  rewrite forallb_forall in Hp. apply str_eqb_eq, Hp, in_or_app.
  destruct H as [H|H]; apply list_contains_In in H; tauto.
Qed.

Lemma key_not_keyword (hello_patterns : list str) (responses : dict)
      (n : str) :
  greeted_keys hello_patterns responses = true -> In n (keys responses) ->
  list_contains exit_commands n = false
  /\ list_contains help_commands n = false.
Proof.
  intros Hg Hn. unfold keys in Hn. apply in_map_iff in Hn as ([k v] & E & Hin).
  cbn [fst] in E. subst k.
  now destruct (greeted_keys_get _ _ _ _ Hg Hin) as (_ & He & Hh).
Qed.

Lemma retry_prompt_is_no_greeting (r : str) : retry_prompt <> greeting r.
Proof.
  intros H. apply (f_equal (fun x => hd 0 x)) in H.
  vm_compute in H. discriminate.
Qed.

Lemma unrecognized_is_no_greeting (s r : str) : unrecognized s <> greeting r.
Proof.
  intros H. apply (f_equal (fun x => hd 0 (tl x))) in H.
  vm_compute in H. discriminate.
Qed.

Section Tables.

Variable hello_patterns : list str.
Variable responses : dict.
Variable show_help : str.

Hypothesis Hempty : any_pattern_matches hello_patterns [] = false.
Hypothesis Hkeys : patterns_are_keys hello_patterns responses = true.
Hypothesis Hgreeted : greeted_keys hello_patterns responses = true.
Hypothesis Hnormal : normalized_keys responses = true.
Hypothesis Hhelp : str_eqb show_help (greeting fallback_response) = false.

Lemma exclusive_predicates (user_input : option str) :
  (is_exit_command user_input = true ->
   is_help_command user_input = false
   /\ is_hello_command hello_patterns user_input = false)
  /\ (is_help_command user_input = true ->
      is_hello_command hello_patterns user_input = false).
Proof.
  assert (Hh : forall n,
             list_contains exit_commands n = true
             \/ list_contains help_commands n = true ->
             is_hello_command hello_patterns user_input = true ->
             n = normalize_input user_input -> False).
  { intros n Hn Hm ->.
    apply (is_hello_command_fold _ _ user_input Hkeys) in Hm.
    rewrite (keyword_fold _ Hn) in Hm.
    destruct (key_not_keyword _ _ _ Hgreeted Hm) as [He Hp].
    destruct Hn; congruence. }
  unfold is_exit_command, is_help_command. split.
  - intros He. split.
    + assert (Hd : forallb (fun k => negb (list_contains help_commands k))
                           exit_commands = true) by (vm_compute; reflexivity).
      rewrite forallb_forall in Hd. apply list_contains_In in He.
      now apply negb_true_iff, Hd.
    + apply not_true_is_false. intros Hm.
      exact (Hh _ (or_introl He) Hm eq_refl).
  - intros Hp. apply not_true_is_false. intros Hm.
    exact (Hh _ (or_intror Hp) Hm eq_refl).
Qed.

Lemma spec_respond_fallback (o : outcome) (s : str) :
  spec_respond responses show_help o s = (greeting fallback_response, Continue) ->
  o = GreetingMatch
  /\ show_greeting responses (Some s) = greeting fallback_response.
Proof.
  intros E.
  pose proof (f_equal fst E) as E1. pose proof (f_equal snd E) as E2.
  clear E. destruct o; cbn [spec_respond fst snd] in E1, E2.
  - discriminate E2.
  - apply str_eqb_eq in E1. congruence.
  - now split.
  - destruct (strip s).
    + destruct (retry_prompt_is_no_greeting _ E1).
    + destruct (unrecognized_is_no_greeting _ _ E1).
Qed.

Lemma fallback_is_missing_key (n : str) :
  greeting (dict_get responses n fallback_response) = greeting fallback_response ->
  ~ In n (keys responses).
Proof.
  intros E. apply greeting_inj in E. unfold dict_get in E.
  destruct (dict_lookup responses n) as [v|] eqn:El;
    [|now apply dict_lookup_None].
  exfalso. apply dict_lookup_Some in El.
  pose proof Hnormal as H. unfold normalized_keys in H.
  rewrite forallb_forall in H. specialize (H _ El).
  apply andb_prop in H as [_ H]. apply negb_true_iff in H.
  apply str_eqb_eq in E. cbn [snd] in H. congruence.
Qed.

Lemma fallback_greeting_iff (s : str) :
  main_loop_body hello_patterns responses show_help s
  = (greeting fallback_response, Continue)
  <-> In (map fold_extra (normalize_input (Some s))) (keys responses)
      /\ ~ In (normalize_input (Some s)) (keys responses).
Proof.
  rewrite (main_loop_body_classify _ _ _ Hempty). split.
  - intros E. apply spec_respond_fallback in E as [Ho Eg]. split.
    + apply (is_hello_command_fold _ _ (Some s) Hkeys).
      unfold loop_classify in Ho.
      destruct (is_exit_command (Some s)); [discriminate|].
      destruct (is_help_command (Some s)); [discriminate|].
      destruct (is_hello_command hello_patterns (Some s));
        [reflexivity | discriminate].
    + apply fallback_is_missing_key. exact Eg.
  - intros [Hf Hn].
    assert (Hm : is_hello_command hello_patterns (Some s) = true)
      by now apply (is_hello_command_fold _ _ (Some s) Hkeys).
    destruct (exclusive_predicates (Some s)) as [He Hp].
    unfold loop_classify.
    destruct (is_exit_command (Some s));
      [destruct (He eq_refl); congruence|].
    destruct (is_help_command (Some s)); [specialize (Hp eq_refl); congruence|].
    rewrite Hm. cbn [spec_respond].
    rewrite (show_greeting_missing responses (Some s) Hn). reflexivity.
Qed.

End Tables.

Lemma hello_show_help_is_no_greeting :
  str_eqb Hello.show_help (greeting fallback_response) = false
  /\ str_eqb HelloSecond.show_help (greeting fallback_response) = false.
Proof. split; vm_compute; reflexivity. Qed.

(** X7.  The three predicates exclude one another on every input: a line
    that [is_exit_command] accepts is accepted by neither
    [is_help_command] nor [is_hello_command], and a line that
    [is_help_command] accepts is not accepted by [is_hello_command], in
    both scripts.  The order of the three checks of [main] therefore
    never decides an answer. *)
Theorem predicates_exclude_one_another (user_input : option str) :
  (is_exit_command user_input = true ->
   is_help_command user_input = false
   /\ Hello.is_hello_command user_input = false
   /\ HelloSecond.is_hello_command user_input = false)
  /\ (is_help_command user_input = true ->
      Hello.is_hello_command user_input = false
      /\ HelloSecond.is_hello_command user_input = false).
Proof.
  destruct (exclusive_predicates Hello.hello_patterns Hello.responses
              hello_patterns_are_keys hello_greeted_keys user_input)
    as [He1 Hp1].
  destruct (exclusive_predicates HelloSecond.hello_patterns
              HelloSecond.responses hello_second_patterns_are_keys
              hello_second_greeted_keys user_input) as [He2 Hp2].
  split.
  - intros H. destruct (He1 H) as [A B]. destruct (He2 H) as [_ C].
    split; [exact A | split; [exact B | exact C]].
  - intros H. split; [exact (Hp1 H) | exact (Hp2 H)].
Qed.

Lemma predicates_exclude_one_another_witness :
  is_exit_command (Some (u " Quit")) = true
  /\ is_help_command (Some (u " Quit")) = false
  /\ HelloSecond.is_hello_command (Some (u " Quit")) = false.
Proof.
  split; [vm_compute; reflexivity|].
  destruct (proj1 (predicates_exclude_one_another (Some (u " Quit"))))
    as (H1 & _ & H2); [vm_compute; reflexivity|].
  split; [exact H1 | exact H2].
Defined.

(** X8.  The loop answers a line with the fallback greeting exactly when
    the normal form of the line is not a key of the dictionary but
    becomes one once U+0131 is read as [i] and U+017F as [s]; no other
    line, and no ASCII line in particular, ever gets the fallback.  This
    holds in both scripts. *)
Theorem fallback_is_for_extra_cases_only (s : str) :
  (Hello.main_loop_body s = (greeting fallback_response, Continue)
   <-> In (map fold_extra (normalize_input (Some s))) (keys Hello.responses)
       /\ ~ In (normalize_input (Some s)) (keys Hello.responses))
  /\ (HelloSecond.main_loop_body s = (greeting fallback_response, Continue)
      <-> In (map fold_extra (normalize_input (Some s)))
             (keys HelloSecond.responses)
          /\ ~ In (normalize_input (Some s)) (keys HelloSecond.responses)).
Proof.
  split.
  - exact (fallback_greeting_iff Hello.hello_patterns Hello.responses
             Hello.show_help hello_patterns_not_empty hello_patterns_are_keys
             hello_greeted_keys hello_normalized_keys
             (proj1 hello_show_help_is_no_greeting) s).
  - exact (fallback_greeting_iff HelloSecond.hello_patterns
             HelloSecond.responses HelloSecond.show_help
             hello_second_patterns_not_empty hello_second_patterns_are_keys
             hello_second_greeted_keys hello_second_normalized_keys
             (proj2 hello_show_help_is_no_greeting) s).
Qed.

Lemma fallback_is_for_extra_cases_only_witness :
  In (map fold_extra (normalize_input (Some (u "Namaſte"))))
     (keys Hello.responses)
  /\ ~ In (normalize_input (Some (u "Namaſte"))) (keys Hello.responses)
  /\ Hello.main_loop_body (u "Namaſte") = (greeting fallback_response, Continue).
Proof.
  assert (H1 : In (map fold_extra (normalize_input (Some (u "Namaſte"))))
                  (keys Hello.responses)).
  { apply list_contains_In. vm_compute. reflexivity. }
  assert (H2 : ~ In (normalize_input (Some (u "Namaſte")))
                    (keys Hello.responses)).
  { intros H. apply list_contains_In in H. vm_compute in H. discriminate. }
  split; [exact H1|]. split; [exact H2|].
  exact (proj2 (proj1 (fallback_is_for_extra_cases_only (u "Namaſte")))
               (conj H1 H2)).
Defined.

(** ** The loop of [main] *)

Section MainLoop.

Variable hello_patterns : list str.
Variable responses : dict.
Variable show_help : str.

Let body := main_loop_body hello_patterns responses show_help.
Let loop := main_loop hello_patterns responses show_help.

Lemma stops_breaks (s : str) :
  stops (Line s) = true -> body s = (farewell, Break).
Proof.
  unfold stops, body, main_loop_body.
  destruct (strip s); [discriminate|]. now intros ->.
Qed.

Lemma goes_on (s : str) :
  stops (Line s) = false -> snd (body s) = Continue.
Proof.
  unfold stops, body, main_loop_body.
  destruct (strip s); [reflexivity|]. intros ->.
  destruct (is_help_command (Some s)); [reflexivity|].
  now destruct (is_hello_command hello_patterns (Some s)).
Qed.

Lemma loop_stops (ev : input_event) (rest : list input_event) :
  stops ev = true -> loop (ev :: rest) = loop [ev].
Proof.
  intros H. unfold loop. destruct ev as [s| |e];
    cbn [main_loop get_user_input]; [|reflexivity..].
  fold body. rewrite (stops_breaks s H). reflexivity.
Qed.

Lemma loop_goes_on (s : str) (rest : list input_event) :
  stops (Line s) = false ->
  loop (Line s :: rest)
  = line_output hello_patterns responses show_help s ++ loop rest.
Proof.
  intros H. apply goes_on in H. unfold loop, line_output.
  cbn [main_loop get_user_input]. fold body.
  destruct (body s) as [out c]. cbn [snd fst] in *. subst c.
  now rewrite app_assoc.
Qed.

Lemma loop_after_stop (pre : list input_event) (ev : input_event)
      (rest : list input_event) :
  stops ev = true -> loop (pre ++ ev :: rest) = loop (pre ++ [ev]).
Proof.
  intros H. induction pre as [|e pre IH]; [now apply loop_stops|].
  unfold loop in *. cbn [app main_loop].
  destruct (get_user_input (Some e)) as [out [s|]]; [|reflexivity].
  destruct (main_loop_body hello_patterns responses show_help s) as [o [|]];
    [|reflexivity].
  now rewrite IH.
Qed.

Lemma loop_lines (lines : list str) (rest : list input_event) :
  forallb (fun s => negb (stops (Line s))) lines = true ->
  loop (map Line lines ++ rest)
  = flat_map (line_output hello_patterns responses show_help) lines
    ++ loop rest.
Proof.
  induction lines as [|s lines IH]; [reflexivity|].
  cbn [forallb]. intros H. apply andb_prop in H as [Hs Hl].
  apply negb_true_iff in Hs. cbn [map app flat_map].
  rewrite (loop_goes_on s _ Hs), (IH Hl). now rewrite app_assoc.
Qed.


End MainLoop.

(** X9.  Once a line is an exit command, or [input()] is interrupted or
    fails, nothing that follows on the input is read: the output of the
    loop is the same whatever comes after. *)
Theorem nothing_is_read_after_the_end
        (hello_patterns : list str) (responses : dict) (show_help : str)
        (pre : list input_event) (ev : input_event) (rest : list input_event) :
  stops ev = true ->
  main_loop hello_patterns responses show_help (pre ++ ev :: rest)
  = main_loop hello_patterns responses show_help (pre ++ [ev]).
Proof. apply loop_after_stop. Qed.

Lemma nothing_is_read_after_the_end_witness :
  stops (Line (u "STOP")) = true
  /\ Hello.main_loop ([Line (u "hi")] ++ Line (u "STOP") :: [Line (u "hello")])
     = Hello.main_loop ([Line (u "hi")] ++ [Line (u "STOP")]).
Proof.
  split; [vm_compute; reflexivity|].
  apply (nothing_is_read_after_the_end Hello.hello_patterns Hello.responses
           Hello.show_help [Line (u "hi")] (Line (u "STOP")) [Line (u "hello")]).
  vm_compute. reflexivity.
Defined.

(** X10.  Lines that do not end the loop are answered one after the
    other, each by the prompt followed by its own answer, and the loop
    then goes on with the rest of the input: no line changes the answer
    to another. *)
Theorem lines_are_answered_in_turn
        (hello_patterns : list str) (responses : dict) (show_help : str)
        (lines : list str) (rest : list input_event) :
  forallb (fun s => negb (stops (Line s))) lines = true ->
  main_loop hello_patterns responses show_help (map Line lines ++ rest)
  = flat_map (line_output hello_patterns responses show_help) lines
    ++ main_loop hello_patterns responses show_help rest.
Proof. apply loop_lines. Qed.

Lemma lines_are_answered_in_turn_witness :
  forallb (fun s => negb (stops (Line s))) [u "hi"; u ""; u "what?"] = true
  /\ HelloSecond.main_loop (map Line [u "hi"; u ""; u "what?"] ++ [])
     = flat_map (line_output HelloSecond.hello_patterns HelloSecond.responses
                             HelloSecond.show_help)
                [u "hi"; u ""; u "what?"]
       ++ HelloSecond.main_loop [].
Proof.
  split; [vm_compute; reflexivity|].
  apply (lines_are_answered_in_turn HelloSecond.hello_patterns
           HelloSecond.responses HelloSecond.show_help
           [u "hi"; u ""; u "what?"] []).
  vm_compute. reflexivity.
Defined.


(** ** The two scripts side by side *)

Lemma any_pattern_matches_exists (patterns : list str) (n : str) :
  any_pattern_matches patterns n = true
  <-> exists p, In p patterns /\ re_match p n IGNORECASE = true.
Proof.
  induction patterns as [|p ps IH]; cbn [any_pattern_matches].
  - split; [discriminate | intros (? & [] & _)].
  - destruct (re_match p n IGNORECASE) eqn:E.
    + split; [|reflexivity]. intros _. exists p. split; [now left | exact E].
    + rewrite IH. split; intros (q & Hq & Hm).
      * exists q. split; [now right | exact Hm].
      * destruct Hq as [<-|Hq]; [congruence|]. now exists q.
Qed.

Lemma hello_patterns_included :
  forallb (list_contains HelloSecond.hello_patterns) Hello.hello_patterns = true.
Proof. vm_compute. reflexivity. Qed.

Lemma hello_responses_included :
  forallb (fun kv => str_eqb (fst kv) (u "hola")
                     || existsb (fun kv' => str_eqb (fst kv') (fst kv)
                                            && str_eqb (snd kv') (snd kv))
                                HelloSecond.responses)
          Hello.responses = true.
Proof. vm_compute. reflexivity. Qed.

Lemma hello_second_keys_plain :
  forallb (fun k => str_eqb (map fold_extra k) k) (keys HelloSecond.responses)
  = true.
Proof. vm_compute. reflexivity. Qed.

(** X12.  [hello_second.py] extends [hello.py]: every line that
    [hello.py] takes for a greeting is a greeting for [hello_second.py]
    too, and it gets the same answer from [show_greeting], unless its
    normal form is ["hola"], whose response was rewritten. *)
Theorem hello_second_extends_hello (user_input : option str) :
  Hello.is_hello_command user_input = true ->
  HelloSecond.is_hello_command user_input = true
  /\ (normalize_input user_input <> u "hola" ->
      HelloSecond.show_greeting user_input = Hello.show_greeting user_input).
Proof.
  intros Hm. split.
  - unfold Hello.is_hello_command, HelloSecond.is_hello_command,
      is_hello_command in *.
    apply any_pattern_matches_exists in Hm as (p & Hp & Hre).
    apply any_pattern_matches_exists. exists p. split; [|exact Hre].
    pose proof hello_patterns_included as Hi. rewrite forallb_forall in Hi.
    apply list_contains_In, Hi, Hp.
  - intros Hne.
    destruct (list_contains (keys Hello.responses) (normalize_input user_input))
      eqn:Hk.
    + apply list_contains_In in Hk. unfold keys in Hk.
      apply in_map_iff in Hk as ([k v] & E & Hin). cbn [fst] in E. subst k.
      unfold Hello.show_greeting, HelloSecond.show_greeting.
      rewrite (show_greeting_item Hello.hello_patterns Hello.responses
                 user_input v hello_greeted_keys Hin).
      apply (show_greeting_item HelloSecond.hello_patterns
               HelloSecond.responses user_input v hello_second_greeted_keys).
      pose proof hello_responses_included as Hi. rewrite forallb_forall in Hi.
      specialize (Hi _ Hin). cbn [fst snd] in Hi.
      apply orb_prop in Hi as [Hi|Hi].
      * apply str_eqb_eq in Hi. contradiction.
      * apply existsb_exists in Hi as ([k' v'] & Hin' & Hi).
        cbn [fst snd] in Hi. apply andb_prop in Hi as [Ek Ev].
        apply str_eqb_eq in Ek, Ev. now subst.
    + assert (H1 : ~ In (normalize_input user_input) (keys Hello.responses)).
      { intros H. apply list_contains_In in H. congruence. }
      assert (H2 : ~ In (normalize_input user_input)
                        (keys HelloSecond.responses)).
      { intros H. apply H1.
        pose proof hello_second_keys_plain as Hp. rewrite forallb_forall in Hp.
        specialize (Hp _ H). apply str_eqb_eq in Hp.
        apply (is_hello_command_fold Hello.hello_patterns Hello.responses
                 user_input hello_patterns_are_keys) in Hm.
        now rewrite Hp in Hm. }
      unfold HelloSecond.show_greeting, Hello.show_greeting.
      rewrite (show_greeting_missing _ user_input H1).
      exact (show_greeting_missing _ user_input H2).
Qed.

Lemma hello_second_extends_hello_witness :
  Hello.is_hello_command (Some (u "  CIAO")) = true
  /\ normalize_input (Some (u "  CIAO")) <> u "hola"
  /\ HelloSecond.is_hello_command (Some (u "  CIAO")) = true
  /\ HelloSecond.show_greeting (Some (u "  CIAO"))
     = Hello.show_greeting (Some (u "  CIAO")).
Proof.
  assert (H1 : Hello.is_hello_command (Some (u "  CIAO")) = true)
    by (vm_compute; reflexivity).
  assert (H2 : normalize_input (Some (u "  CIAO")) <> u "hola")
    by (vm_compute; discriminate).
  destruct (hello_second_extends_hello (Some (u "  CIAO")) H1) as [H3 H4].
  split; [exact H1|]. split; [exact H2|]. split; [exact H3 | exact (H4 H2)].
Defined.

(** ** The job-status endpoint *)

Lemma eq_literal_true (value : option str) (literal : str) :
  App.eq_literal value literal = true <-> value = Some literal.
Proof.
  destruct value as [s|]; simpl.
  - rewrite str_eqb_eq. split; congruence.
  - split; discriminate.
Qed.

Lemma args_get_app (pre args : App.MultiDict) (key : str) :
  App.has_param pre key = false ->
  App.args_get (pre ++ args) key = App.args_get args key.
Proof.
  induction pre as [|[k v] pre IH]; [reflexivity|]. simpl.
  intros H. apply orb_false_iff in H as [-> H]. now apply IH.
Qed.

(** X13.  The answer of [/job] tells which branch was taken: the four
    answers are distinct, and each is given for its own value of the
    [jobname] parameter only.  In particular the handler sleeps only for
    ["timeout"], and answers 400 only when the parameter is none of the
    three job names. *)
Theorem job_answer_identifies_jobname (args : App.MultiDict) :
  (App.serve_job args = ([], {| App.body := u "0"; App.status := 200 |})
   <-> App.args_get args (u "jobname") = Some (u "normal"))
  /\ (App.serve_job args = ([], {| App.body := u "1"; App.status := 200 |})
      <-> App.args_get args (u "jobname") = Some (u "error"))
  /\ (App.serve_job args = ([3600], {| App.body := u "0"; App.status := 200 |})
      <-> App.args_get args (u "jobname") = Some (u "timeout"))
  /\ (App.serve_job args
      = ([], {| App.body := u "Invalid jobname"; App.status := 400 |})
      <-> App.args_get args (u "jobname") <> Some (u "normal")
          /\ App.args_get args (u "jobname") <> Some (u "error")
          /\ App.args_get args (u "jobname") <> Some (u "timeout")).
Proof.
  unfold App.serve_job, App.job_handler.
  destruct (App.eq_literal (App.args_get args (u "jobname")) (u "normal"))
    eqn:E1;
    [|destruct (App.eq_literal (App.args_get args (u "jobname")) (u "error"))
        eqn:E2;
      [|destruct (App.eq_literal (App.args_get args (u "jobname"))
                                 (u "timeout")) eqn:E3]].
  - apply eq_literal_true in E1. rewrite E1.
    repeat split; try reflexivity; try discriminate;
      try (intros H; exfalso; vm_compute in H; discriminate).
    all: intros (H1 & H2 & H3); exfalso; congruence.
  - apply eq_literal_true in E2. rewrite E2.
    repeat split; try reflexivity; try discriminate;
      try (intros H; exfalso; vm_compute in H; discriminate).
    all: intros (H1 & H2 & H3); exfalso; congruence.
  - apply eq_literal_true in E3. rewrite E3.
    repeat split; try reflexivity; try discriminate;
      try (intros H; exfalso; vm_compute in H; discriminate).
    all: intros (H1 & H2 & H3); exfalso; congruence.
  - assert (H1 : App.args_get args (u "jobname") <> Some (u "normal"))
      by (intros H; apply eq_literal_true in H; congruence).
    assert (H2 : App.args_get args (u "jobname") <> Some (u "error"))
      by (intros H; apply eq_literal_true in H; congruence).
    assert (H3 : App.args_get args (u "jobname") <> Some (u "timeout"))
      by (intros H; apply eq_literal_true in H; congruence).
    repeat split; try assumption; try contradiction;
      intros H; exfalso; vm_compute in H; discriminate.
Qed.

Lemma job_answer_identifies_jobname_witness :
  App.serve_job [(u "jobname", u "timeout"); (u "x", u "y")]
  = ([3600], {| App.body := u "0"; App.status := 200 |})
  /\ App.args_get [(u "jobname", u "timeout"); (u "x", u "y")] (u "jobname")
     = Some (u "timeout").
Proof.
  assert (H : App.serve_job [(u "jobname", u "timeout"); (u "x", u "y")]
              = ([3600], {| App.body := u "0"; App.status := 200 |}))
    by (vm_compute; reflexivity).
  split; [exact H|].
  exact (proj1 (proj1 (proj2 (proj2 (job_answer_identifies_jobname
                                       [(u "jobname", u "timeout");
                                        (u "x", u "y")])))) H).
Defined.

(** X14.  When [jobname] is given several times, the first value
    decides, and parameters of other names change nothing: the answer is
    that of the query with this value alone. *)
Theorem first_jobname_decides (pre : App.MultiDict) (v : str)
        (rest : App.MultiDict) :
  App.has_param pre (u "jobname") = false ->
  App.serve_job (pre ++ (u "jobname", v) :: rest)
  = App.serve_job [(u "jobname", v)].
Proof.
  intros H. unfold App.serve_job, App.job_handler.
  rewrite (args_get_app pre _ _ H). cbn [App.args_get].
  now rewrite str_eqb_refl.
Qed.

Lemma first_jobname_decides_witness :
  App.has_param [(u "user", u "ann")] (u "jobname") = false
  /\ App.serve_job ([(u "user", u "ann")] ++ (u "jobname", u "error")
                    :: [(u "jobname", u "timeout")])
     = App.serve_job [(u "jobname", u "error")].
Proof.
  split; [vm_compute; reflexivity|].
  apply (first_jobname_decides [(u "user", u "ann")] (u "error")
                               [(u "jobname", u "timeout")]).
  vm_compute. reflexivity.
Defined.
